(** * Falling-film absorber simulation: the marching solver of [app.py]

    A shallow embedding of [AbsorberSimulation] (its constructor,
    [get_equilibrium_pressure] and [solve]) and the properties of it that
    the specification states.

    The Python code computes with numbers whose arithmetic is partly
    outside the repository (binary64 rounding, numpy's [log], [exp] and
    [ceil], C's [pow]).  The solver is therefore written once, line by
    line, over an interface [Arith] of exactly the operations the source
    uses, and run in two instances:

    - [RArith]: exact real arithmetic, the code's formulas without
      rounding, overflow or underflow.  A division by zero, a logarithm
      of a non-positive number or a non-positive base of a fractional
      power has no real value and is a failure ([None]);
    - [FArith lm]: binary64 arithmetic on Rocq's primitive floats, which
      is what the program runs in, with Python's distinction between its
      own floats (division by zero raises) and numpy scalars (division by
      zero yields inf or nan), over a math library [lm].

    What depends only on the control flow of [solve] is proved for every
    [Arith], hence for the program.  What depends on the ordered-field
    laws is proved in [RArith] and stated as a property of exact
    arithmetic; where the program departs from it, a run of [FArith]
    shows the departure. *)

From Stdlib Require Import ZArith List Bool Lia.
From Stdlib Require Import Reals Lra.
From Stdlib Require Import PrimFloat FloatOps SpecFloat FloatAxioms.
Import ListNotations.

Set Implicit Arguments.

(** ** Failure: a Python exception aborts [solve] *)

Definition bind {X Y : Type} (m : option X) (k : X -> option Y) : option Y :=
  match m with
  | Some x => k x
  | None => None
  end.

Notation "x <- m ;; k" := (bind m (fun x => k))
  (at level 61, m at next level, right associativity).

(** ** The arithmetic the source uses *)

Record Arith : Type := {
  num : Type;
  (** a Python [int] entering float arithmetic *)
  of_Z : Z -> num;
  (** the decimal literal whose value is [n / d] *)
  lit : Z -> Z -> num;
  (** [np.pi] *)
  pi : num;
  add : num -> num -> num;
  sub : num -> num -> num;
  mul : num -> num -> num;
  (** [x / y]: may raise [ZeroDivisionError] *)
  div : num -> num -> option num;
  (** [x ** y] *)
  pow : num -> num -> option num;
  (** [np.log(x)] *)
  np_log : num -> option num;
  (** [np.exp(x)] *)
  np_exp : num -> num;
  (** [int(np.ceil(x))] *)
  ceil_int : num -> option Z;
  ltb : num -> num -> bool;
  gtb : num -> num -> bool;
  geb : num -> num -> bool
}.

(** ** The data of [solve] *)

(** The object: the attributes set by [__init__], and [N_tubes], which
    exists only once [solve] has assigned it. *)
Record AbsorberSimulation (num : Type) : Type := {
  gas_flow : num;
  gas_temp : num;
  hcl_frac : num;
  cw_temp : num;
  target_conc : num;
  Di : num;
  N_tubes : option Z
}.

(** The local variables of [solve] that the loop updates. *)
Record MarchState (num : Type) : Type := {
  T_curr : num;
  C_curr : num;
  current_hcl_mass : num;
  accumulated_length : num;
  total_heat_removed : num;
  z_axis : list num;
  temp_liquid : list num;
  conc_liquid : list num;
  flux_profile : list num
}.

(** The tuple returned by [solve]. *)
Record SolveResult (num : Type) : Type := {
  res_N_tubes : Z;
  res_length : num;
  res_heat : num;
  res_max_temp : num;
  res_z : list num;
  res_temp : list num;
  res_conc : list num;
  res_flux : list num
}.

(** The assignment [self.N_tubes = n]. *)
Definition set_N_tubes (num : Type) (self : AbsorberSimulation num) (n : Z)
  : AbsorberSimulation num :=
  {| gas_flow := gas_flow self;
     gas_temp := gas_temp self;
     hcl_frac := hcl_frac self;
     cw_temp := cw_temp self;
     target_conc := target_conc self;
     Di := Di self;
     N_tubes := Some n |}.

(** The four profile lists of a loop state. *)
Definition profiles (num : Type) (st : MarchState num)
  : list num * list num * list num * list num :=
  (z_axis st, temp_liquid st, conc_liquid st, flux_profile st).

Section Simulation.

Variable A : Arith.

(** Python's [max(a, b)]: the first argument unless the second is strictly
    greater. *)
Definition py_max (a b : num A) : num A := if gtb A b a then b else a.

(** Python's [max(l)] of a list; [ValueError] on the empty list. *)
Definition py_max_list (l : list (num A)) : option (num A) :=
  match l with
  | [] => None
  | x :: xs => Some (fold_left py_max xs x)
  end.

(** [__init__]. *)
Definition init (gas_flow0 gas_temp0 target_conc0 cw_temp0 : num A)
  : AbsorberSimulation (num A) :=
  {| gas_flow := gas_flow0;
     gas_temp := gas_temp0;
     hcl_frac := lit A 6728 10000;
     cw_temp := cw_temp0;
     target_conc := target_conc0;
     Di := lit A 20 1000;
     N_tubes := None |}.

(** Lines 17-20.  The method does not use [self]. *)
Definition get_equilibrium_pressure (temp conc : num A) : option (num A) :=
  if ltb A conc (lit A 1 100) then Some (of_Z A 0)
  else
    q <- div A (of_Z A 2500) (add A temp (of_Z A 273)) ;;
    l <- np_log A conc ;;
    let log_p := add A (sub A (lit A 105 10) q) (mul A (of_Z A 2) l) in
    Some (mul A (np_exp A log_p) (lit A 133322 1000)).

Definition steps : nat := 60.
Definition L_step : num A := lit A 1 10.

(** Lines 28-31: the tube count. *)
Definition tube_count (self : AbsorberSimulation (num A)) : option Z :=
  let rho_gas := lit A 242 100 in
  let u_gas_design := lit A 160 10 in
  g <- div A (gas_flow self) (of_Z A 3600) ;;
  vol_gas <- div A g rho_gas ;;
  a <- div A vol_gas u_gas_design ;;
  r <- div A (Di self) (of_Z A 2) ;;
  r2 <- pow A r (of_Z A 2) ;;
  x <- div A a (mul A (pi A) r2) ;;
  ceil_int A x.

(** Lines 23-25: the solvent rate of the overall mass balance. *)
Definition water_rate (self : AbsorberSimulation (num A)) : option (num A) :=
  let total_hcl_in := mul A (gas_flow self) (hcl_frac self) in
  product_rate <- div A total_hcl_in (target_conc self) ;;
  Some (mul A product_rate (sub A (of_Z A 1) (target_conc self))).

(** Lines 35-40: the state in which the loop is entered. *)
Definition initial_state (self : AbsorberSimulation (num A)) (water : num A)
  : option (MarchState (num A)) :=
  h <- div A (mul A water (lit A 5 100)) (lit A 95 100) ;;
  Some {| T_curr := gas_temp self;
          C_curr := lit A 5 100;
          current_hcl_mass := h;
          accumulated_length := of_Z A 0;
          total_heat_removed := of_Z A 0;
          z_axis := [];
          temp_liquid := [];
          conc_liquid := [];
          flux_profile := [] |}.

(** Lines 43-67: one pass through the loop body, up to the test of
    line 69.  [current_water_mass] is [water] throughout; [self.N_tubes]
    is read from the object. *)
Definition march_step (self : AbsorberSimulation (num A)) (water : num A)
    (st : MarchState (num A)) : option (MarchState (num A)) :=
  N <- N_tubes self ;;
  let hcl := current_hcl_mass st in
  m <- div A (add A water hcl) (of_Z A 3600) ;;
  gamma <- div A m (mul A (mul A (pi A) (Di self)) (of_Z A N)) ;;
  Re_L <- div A (mul A (of_Z A 4) gamma) (lit A 8 10000) ;;
  e <- div A (of_Z A (-1)) (of_Z A 3) ;;
  p <- pow A Re_L e ;;
  let h_film := py_max (of_Z A 500) (mul A (of_Z A 1200) p) in
  g <- div A (gas_flow self) (of_Z A 3600) ;;
  f <- div A hcl (add A hcl g) ;;
  let P_gas_partial := mul A f (of_Z A 101325) in
  P_star <- get_equilibrium_pressure (T_curr st) (C_curr st) ;;
  let driving_force := py_max (of_Z A 0) (sub A P_gas_partial P_star) in
  let area := mul A (mul A (mul A (pi A) (Di self)) L_step) (of_Z A N) in
  mass_absorbed <-
    div A (mul A (mul A (mul A (lit A 25 100000) driving_force) area)
                 (lit A 365 10))
          (of_Z A 1000) ;;
  let Q_gen := mul A mass_absorbed (of_Z A 1800) in
  r1 <- div A (of_Z A 1) h_film ;;
  r2 <- div A (of_Z A 1) (of_Z A 2000) ;;
  r3 <- div A (lit A 5 1000) (of_Z A 150) ;;
  u <- div A (lit A 10 10) (add A (add A r1 r2) r3) ;;
  let U_overall := mul A u (of_Z A 1000) in
  Q_removed <-
    div A (mul A (mul A U_overall area) (sub A (T_curr st) (cw_temp self)))
          (of_Z A 1000) ;;
  m' <- div A (add A water hcl) (of_Z A 3600) ;;
  dt <- div A (sub A Q_gen Q_removed) (mul A m' (lit A 418 100)) ;;
  let T' := add A (T_curr st) dt in
  let hcl' := add A hcl (mul A mass_absorbed (of_Z A 3600)) in
  C' <- div A hcl' (add A hcl' water) ;;
  let len' := add A (accumulated_length st) L_step in
  Some {| T_curr := T';
          C_curr := C';
          current_hcl_mass := hcl';
          accumulated_length := len';
          total_heat_removed := add A (total_heat_removed st) Q_removed;
          z_axis := z_axis st ++ [len'];
          temp_liquid := temp_liquid st ++ [T'];
          conc_liquid := conc_liquid st ++ [mul A C' (of_Z A 100)];
          flux_profile := flux_profile st ++ [Q_removed] |}.

(** Lines 42-69: [for _ in range(steps)] with the [break] of line 69. *)
Fixpoint march (self : AbsorberSimulation (num A)) (water : num A)
    (remaining : nat) (st : MarchState (num A)) : option (MarchState (num A)) :=
  match remaining with
  | O => Some st
  | S n =>
      st' <- march_step self water st ;;
      if geb A (C_curr st') (target_conc self) then Some st'
      else march self water n st'
  end.

(** [solve]: the returned tuple and the object after the call. *)
Definition solve (self : AbsorberSimulation (num A))
  : option (SolveResult (num A) * AbsorberSimulation (num A)) :=
  water <- water_rate self ;;
  N <- tube_count self ;;
  let self' := set_N_tubes self N in
  st0 <- initial_state self' water ;;
  st <- march self' water steps st0 ;;
  peak <- py_max_list (temp_liquid st) ;;
  Some ({| res_N_tubes := N;
           res_length := accumulated_length st;
           res_heat := total_heat_removed st;
           res_max_temp := peak;
           res_z := z_axis st;
           res_temp := temp_liquid st;
           res_conc := conc_liquid st;
           res_flux := flux_profile st |}, self').

(** *** Notions the statements below use *)

(** [k] passes through the loop body with no test of line 69 in between. *)
Fixpoint iter_step (self : AbsorberSimulation (num A)) (water : num A) (k : nat)
    (st : MarchState (num A)) : option (MarchState (num A)) :=
  match k with
  | O => Some st
  | S n => st' <- march_step self water st ;; iter_step self water n st'
  end.

(** The loop variables after [k] passes, from the state in which [solve]
    enters the loop. *)
Definition state_after (self : AbsorberSimulation (num A)) (k : nat)
  : option (MarchState (num A)) :=
  water <- water_rate self ;;
  N <- tube_count self ;;
  let self' := set_N_tubes self N in
  st0 <- initial_state self' water ;;
  iter_step self' water k st0.

(** [accumulated_length] after [k] executions of line 61. *)
Fixpoint length_after (k : nat) : num A :=
  match k with
  | O => of_Z A 0
  | S n => add A (length_after n) L_step
  end.

(** The objects a caller can hold after [AbsorberSimulation(a, b, c, d)]:
    the fresh one, any that an earlier call of [solve] has returned from,
    and any on which an earlier call raised after the assignment of
    line 31. *)
Inductive built_from (a b c d : num A) : AbsorberSimulation (num A) -> Prop :=
  | built_init : built_from a b c d (init a b c d)
  | built_solve self r self' :
      built_from a b c d self ->
      solve self = Some (r, self') ->
      built_from a b c d self'
  | built_raise self water n :
      built_from a b c d self ->
      water_rate self = Some water ->
      tube_count self = Some n ->
      solve self = None ->
      built_from a b c d (set_N_tubes self n).

End Simulation.

Arguments init : clear implicits.
Arguments get_equilibrium_pressure : clear implicits.
Arguments tube_count : clear implicits.
Arguments water_rate : clear implicits.
Arguments initial_state : clear implicits.
Arguments march_step : clear implicits.
Arguments march : clear implicits.
Arguments solve : clear implicits.
Arguments iter_step : clear implicits.
Arguments state_after : clear implicits.
Arguments length_after : clear implicits.

(** ** Exact real arithmetic *)

Module RealArith.

Local Open Scope R_scope.

(** [x / y].  A zero divisor leaves the reals: on Python numbers the
    source raises [ZeroDivisionError]; with a numpy scalar involved it
    goes on with inf or nan, which only [FArith] follows. *)
Definition R_div (x y : R) : option R :=
  if Req_EM_T y 0 then None else Some (x / y).

(** [x ** y] on reals: a positive base is the usual power; zero to a
    negative power raises [ZeroDivisionError]; a negative base has a real
    power only for an integer exponent (Python returns a complex number
    otherwise, on which the [max] of line 45 raises [TypeError]). *)
Definition R_pow (x y : R) : option R :=
  if Rlt_dec 0 x then Some (Rpower x y)
  else if Req_EM_T y (IZR (Zfloor y)) then
    if Req_EM_T x 0 then
      if Rlt_dec y 0 then None else Some (powerRZ x (Zfloor y))
    else Some (powerRZ x (Zfloor y))
  else if Req_EM_T x 0 then
    if Rlt_dec y 0 then None else Some 0
  else None.

(** The logarithm of a non-positive number has no real value. *)
Definition R_log (x : R) : option R :=
  if Rlt_dec 0 x then Some (ln x) else None.

Definition R_ltb (x y : R) : bool := if Rlt_dec x y then true else false.

Definition RArith : Arith :=
  {| num := R;
     of_Z := IZR;
     lit := fun n d => IZR n / IZR d;
     pi := PI;
     add := Rplus;
     sub := Rminus;
     mul := Rmult;
     div := R_div;
     pow := R_pow;
     np_log := R_log;
     np_exp := exp;
     ceil_int := fun x => Some (Zceil x);
     ltb := R_ltb;
     gtb := fun x y => R_ltb y x;
     geb := fun x y => negb (R_ltb x y) |}.

(** *** Notions the statements about real runs use *)

(** The quotient whose ceiling is the tube count: gas volume flow over
    design velocity over the cross-section of one tube. *)
Definition tube_quotient (gf : R) : R :=
  gf / 3600 / (242 / 100) / (160 / 10) / (PI * (20 / 1000 / 2) ^ 2).

(** At the start of every pass the loop makes, the liquid temperature is
    off the singularity of the equilibrium correlation at -273 C. *)
Definition no_singular_temperature (self : AbsorberSimulation R) : Prop :=
  forall k st, (k < steps)%nat ->
    state_after RArith self k = Some st ->
    (forall j stj, (1 <= j <= k)%nat ->
       state_after RArith self j = Some stj ->
       geb RArith (C_curr stj) (target_conc self) = false) ->
    T_curr st + 273 <> 0.

(** What the loop keeps true of its variables in a run on inputs
    [gas_flow = gf] and [target_conc = tc]: the absorbed mass is at least
    its seed, and [C_curr] is the mass fraction of the current masses. *)
Definition run_inv (gf tc : R) (st : MarchState R) : Prop :=
  let water := gf * (6728 / 10000) / tc * (1 - tc) in
  water * (5 / 100) / (95 / 100) <= current_hcl_mass st /\
  C_curr st = current_hcl_mass st / (current_hcl_mass st + water).

End RealArith.

(** ** Binary64 arithmetic with Python's scalar kinds *)

Module FloatArith.

Local Open Scope float_scope.

(** The math library behind [np.log], [np.exp] and [**]. *)
Record Libm : Type := {
  lm_log : float -> float;
  lm_exp : float -> float;
  lm_pow : float -> float -> float
}.

(** A value and whether it is a numpy scalar ([np.float64]) rather than a
    Python [float] or [int]: numpy scalars are contagious, and arithmetic
    on them never raises. *)
Record pynum : Type := {
  fval : float;
  is_np : bool
}.

Definition py (x : float) : pynum := {| fval := x; is_np := false |}.
Definition np (x : float) : pynum := {| fval := x; is_np := true |}.

(** The nearest binary64 number to an integer. *)
Definition float_of_Z (z : Z) : float :=
  SF2Prim (binary_normalize prec emax z 0 false).

(** The integer [ceil x] of a finite [x]; nothing for nan and the
    infinities ([int] raises on them). *)
Definition float_ceil (x : float) : option Z :=
  match Prim2SF x with
  | S754_zero _ => Some 0%Z
  | S754_finite s m e =>
      let v := if s then Z.neg m else Z.pos m in
      Some (if (0 <=? e)%Z then (v * 2 ^ e)%Z
            else (- ((- v) / 2 ^ (- e)))%Z)
  | _ => None
  end.

Definition float_is_int (x : float) : bool :=
  match Prim2SF x with
  | S754_zero _ => true
  | S754_finite _ m e =>
      if (0 <=? e)%Z then true else (Z.pos m mod 2 ^ (- e) =? 0)%Z
  | _ => false
  end.

Definition lift2 (f : float -> float -> float) (a b : pynum) : pynum :=
  {| fval := f (fval a) (fval b); is_np := is_np a || is_np b |}.

(** [x / y]: [ZeroDivisionError] for a zero divisor when both operands are
    Python numbers; inf or nan when a numpy scalar is involved. *)
Definition F_div (a b : pynum) : option pynum :=
  if (fval b =? 0) && negb (is_np a || is_np b) then None
  else Some (lift2 PrimFloat.div a b).

(** C's [DOUBLE_IS_ODD_INTEGER]: a finite odd integer. *)
Definition float_is_odd_int (x : float) : bool :=
  match Prim2SF x with
  | S754_finite _ m e =>
      if (0 <? e)%Z then false
      else (Z.pos m mod 2 ^ (- e) =? 0)%Z && Z.odd (Z.pos m / 2 ^ (- e))
  | _ => false
  end.

(** [x ** y] on two Python floats, in the order of the cases of CPython's
    [float_pow]: a zero exponent, a nan operand, an infinite exponent and
    an infinite base are answered before the math library is asked;
    [0.0 ** negative] raises [ZeroDivisionError]; a negative finite base
    with a fractional exponent gives a complex number, on which the [max]
    of line 45 raises [TypeError]; a base of absolute value 1 gives 1 or
    -1; otherwise the library's [pow] is called on the absolute value of
    the base, and an infinite result raises [OverflowError]. *)
Definition py_float_pow (lm : Libm) (x y : float) : option float :=
  if y =? 0 then Some 1
  else if is_nan x then Some x
  else if is_nan y then Some (if x =? 1 then 1 else y)
  else if is_infinity y then
    if abs x =? 1 then Some 1
    else if Bool.eqb (0 <? y) (1 <? abs x) then Some (abs y)
    else Some 0
  else if is_infinity x then
    if 0 <? y then Some (if float_is_odd_int y then x else abs x)
    else Some (if float_is_odd_int y && (x <? 0) then (- 0) else 0)
  else if x =? 0 then
    if y <? 0 then None
    else Some (if float_is_odd_int y then x else 0)
  else if (x <? 0) && negb (float_is_int y) then None
  else
    let negate := (x <? 0) && float_is_odd_int y in
    if abs x =? 1 then Some (if negate then (- 1) else 1)
    else
      let r := lm_pow lm (abs x) y in
      if is_infinity r then None
      else Some (if negate then - r else r).

(** [x ** y]: CPython's [float_pow] on Python numbers; with a numpy scalar
    involved, numpy's power, which calls the library and never raises. *)
Definition F_pow (lm : Libm) (a b : pynum) : option pynum :=
  if is_np a || is_np b then Some (np (lm_pow lm (fval a) (fval b)))
  else option_map py (py_float_pow lm (fval a) (fval b)).

Definition FArith (lm : Libm) : Arith :=
  {| num := pynum;
     of_Z := fun z => py (float_of_Z z);
     lit := fun n d => py (float_of_Z n / float_of_Z d);
     pi := py 0x1.921fb54442d18p+1;
     add := lift2 PrimFloat.add;
     sub := lift2 PrimFloat.sub;
     mul := lift2 PrimFloat.mul;
     div := F_div;
     pow := F_pow lm;
     np_log := fun a => Some (np (lm_log lm (fval a)));
     np_exp := fun a => np (lm_exp lm (fval a));
     ceil_int := fun a => float_ceil (fval a);
     ltb := fun a b => fval a <? fval b;
     gtb := fun a b => fval b <? fval a;
     geb := fun a b => fval b <=? fval a |}.

End FloatArith.

(** ** A math library to run the solver with

    [np.log], [np.exp] and C's [pow] are not part of the repository.  The
    functions below compute them on binary64 by argument reduction and a
    truncated series, to about fifteen significant digits; they are what
    concrete runs of [FArith] in this file use.  Every statement about
    [FArith] that does not evaluate a run is made for any [Libm]. *)

Module LibmApprox.

Import FloatArith.
Local Open Scope float_scope.

Definition ln2_hi : float := 0x1.62e42feep-1.
Definition ln2_lo : float := 0x1.a39ef35793c76p-33.
Definition inv_ln2 : float := 0x1.71547652b82fep+0.
Definition sqrt_half : float := 0x1.6a09e667f3bcdp-1.

(** Horner evaluation of [sum_j x^j / j!] for [j] up to [n], called with
    [k = 1]. *)
Fixpoint exp_series (n : nat) (k : float) (x : float) : float :=
  match n with
  | O => 1
  | S n' => 1 + x / k * exp_series n' (k + 1) x
  end.

Definition exp_approx (x : float) : float :=
  if is_nan x then nan
  else if 0x1.62e42fefa39efp+9 <? x then infinity
  else if x <? -0x1.74910d52d3051p+9 then 0
  else
    match float_ceil (x * inv_ln2 - 0.5) with
    | Some k =>
        let fk := float_of_Z k in
        let r := (x - fk * ln2_hi) - fk * ln2_lo in
        Z.ldexp (exp_series 16 1 r) k
    | None => nan
    end.

(** Horner evaluation of [sum_j s2^j / (d + 2 j)] for [j] below [n]. *)
Fixpoint atanh_series (n : nat) (d : float) (s2 : float) : float :=
  match n with
  | O => 0
  | S n' => 1 / d + s2 * atanh_series n' (d + 2) s2
  end.

Definition log_approx (x : float) : float :=
  if is_nan x then nan
  else if x <? 0 then nan
  else if x =? 0 then neg_infinity
  else if is_infinity x then infinity
  else
    let (m, e) := Z.frexp x in
    let (m, e) := if m <? sqrt_half then (2 * m, (e - 1)%Z) else (m, e) in
    let s := (m - 1) / (m + 1) in
    let fe := float_of_Z e in
    fe * ln2_hi + (2 * s * atanh_series 14 1 (s * s) + fe * ln2_lo).

Definition pow_approx (x y : float) : float :=
  if y =? 0 then 1
  else if y =? 2 then x * x
  else if is_nan x || is_nan y then nan
  else if x =? 0 then (if y <? 0 then infinity else 0)
  else if x <? 0 then
    (if float_is_int y then
       let r := exp_approx (y * log_approx (- x)) in
       if float_is_int (y / 2) then r else - r
     else nan)
  else exp_approx (y * log_approx x).

Definition libm : Libm :=
  {| lm_log := log_approx; lm_exp := exp_approx; lm_pow := pow_approx |}.

End LibmApprox.

(** ** Runs in binary64 *)

Module Runs.

Import FloatArith.

Definition F : Arith := FArith LibmApprox.libm.

(** The dashboard's default inputs: 2500 kg/h, 10 C, 0.32, 32 C. *)
Definition default_inputs : AbsorberSimulation (num F) :=
  init F (of_Z F 2500) (of_Z F 10) (lit F 32 100) (of_Z F 32).

(** The same with a target of 0.38, which the march does not reach. *)
Definition unreached_inputs : AbsorberSimulation (num F) :=
  init F (of_Z F 2500) (of_Z F 10) (lit F 38 100) (of_Z F 32).

(** The same with a target equal to the seed concentration 0.05. *)
Definition seed_inputs : AbsorberSimulation (num F) :=
  init F (of_Z F 2500) (of_Z F 10) (lit F 5 100) (of_Z F 32).

(** The smallest positive binary64 number, about 4.9e-324. *)
Definition least_positive : float := 0x1p-1074%float.

(** The default inputs with the target [143 * 2^-70], about 1.2e-19: the
    solvent rate is then so large that one pass adds nothing to the
    absorbed mass. *)
Definition rounding_inputs : AbsorberSimulation (num F) :=
  init F (of_Z F 2500) (of_Z F 10) (py 0x1.1ep-63%float) (of_Z F 32).

(** The default inputs with a gas flow of [2^1023], about 9e307 kg/h: the
    solvent rate overflows. *)
Definition overflow_inputs : AbsorberSimulation (num F) :=
  init F (py 0x1p+1023%float) (of_Z F 10) (lit F 32 100) (of_Z F 32).

(** A gas flow of [2^1021], about 2.2e307 kg/h, with the target 0.05. *)
Definition overflow_seed_inputs : AbsorberSimulation (num F) :=
  init F (py 0x1p+1021%float) (of_Z F 10) (lit F 5 100) (of_Z F 32).

(** A gas flow of [2^1023] with the gas entering at the cooling-water
    temperature and a target of 0.9, for which the solvent rate is
    finite. *)
Definition isothermal_inputs : AbsorberSimulation (num F) :=
  init F (py 0x1p+1023%float) (of_Z F 32) (lit F 9 10) (of_Z F 32).

End Runs.

(** * Properties *)

Unset Implicit Arguments.

(** ** Control flow of [solve], for every arithmetic *)

Lemma bind_Some {X Y : Type} (m : option X) (k : X -> option Y) (y : Y) :
  bind m k = Some y -> exists x, m = Some x /\ k x = Some y.
Proof. destruct m as [x|]; simpl; [eauto | discriminate]. Qed.

Ltac inv_bind H :=
  repeat (let x := fresh "x" in
          let E := fresh "E" in
          apply bind_Some in H; destruct H as (x & E & H)).

Section Control.

Variable A : Arith.

Implicit Types (self : AbsorberSimulation (num A)) (st : MarchState (num A)).

(** What one pass through the loop body does to the recorded profiles, the
    accumulated length and the accumulated heat. *)
Lemma march_step_appends self water st st' :
  march_step A self water st = Some st' ->
  accumulated_length st' = add A (accumulated_length st) (L_step A) /\
  z_axis st' = z_axis st ++ [accumulated_length st'] /\
  temp_liquid st' = temp_liquid st ++ [T_curr st'] /\
  conc_liquid st' = conc_liquid st ++ [mul A (C_curr st') (of_Z A 100)] /\
  exists Q_removed,
    flux_profile st' = flux_profile st ++ [Q_removed] /\
    total_heat_removed st' = add A (total_heat_removed st) Q_removed.
Proof.
  unfold march_step. intros H. inv_bind H.
  injection H as <-. simpl. repeat split. eauto.
Qed.

Lemma iter_step_S_last self water k st :
  iter_step A self water (S k) st =
  (stk <- iter_step A self water k st ;; march_step A self water stk).
Proof.
  revert st. induction k as [|k IH]; intros st.
  - simpl. destruct (march_step A self water st); reflexivity.
  - change (iter_step A self water (S (S k)) st)
      with (s1 <- march_step A self water st ;;
            iter_step A self water (S k) s1).
    change (iter_step A self water (S k) st)
      with (s1 <- march_step A self water st ;; iter_step A self water k s1).
    destruct (march_step A self water st) as [s1|]; simpl;
      [apply IH | reflexivity].
Qed.

(** Every state on the way to the state after [n] passes exists. *)
Lemma iter_step_before self water n st st' k :
  iter_step A self water n st = Some st' -> (k <= n)%nat ->
  exists stk, iter_step A self water k st = Some stk.
Proof.
  revert st' k. induction n as [|n IH]; intros st' k H Hk.
  - replace k with 0%nat by lia. simpl. eauto.
  - destruct (Nat.eq_dec k (S n)) as [->|Hne]; [eauto|].
    rewrite iter_step_S_last in H. apply bind_Some in H.
    destruct H as (stn & Hn & _). apply (IH stn); [exact Hn | lia].
Qed.

(** The profiles after [k] passes are the first [k] entries of the
    profiles after [n >= k] passes. *)
Lemma iter_step_profiles self water n st0 stn :
  iter_step A self water n st0 = Some stn ->
  z_axis st0 = [] -> temp_liquid st0 = [] ->
  conc_liquid st0 = [] -> flux_profile st0 = [] ->
  (length (z_axis stn) = n /\ length (temp_liquid stn) = n /\
   length (conc_liquid stn) = n /\ length (flux_profile stn) = n) /\
  forall k stk, (k <= n)%nat -> iter_step A self water k st0 = Some stk ->
    profiles stk = (firstn k (z_axis stn), firstn k (temp_liquid stn),
                    firstn k (conc_liquid stn), firstn k (flux_profile stn)).
Proof.
  intros H Hz Ht Hc Hf. revert stn H.
  induction n as [|n IH]; intros stn H.
  - simpl in H. injection H as <-. rewrite Hz, Ht, Hc, Hf.
    split; [auto|]. intros k stk Hk Hs.
    replace k with 0%nat in * by lia. simpl in Hs. injection Hs as <-.
    unfold profiles. rewrite Hz, Ht, Hc, Hf. reflexivity.
  - rewrite iter_step_S_last in H. apply bind_Some in H.
    destruct H as (sn & Hn & Hstep).
    destruct (IH sn Hn) as ((Lz & Lt & Lc & Lf) & Hpre).
    destruct (march_step_appends _ _ _ _ Hstep)
      as (_ & Ez & Et & Ec & Q & Ef & _).
    split.
    + rewrite Ez, Et, Ec, Ef, !length_app, Lz, Lt, Lc, Lf. simpl.
      repeat split; lia.
    + intros k stk Hk Hs.
      destruct (Nat.eq_dec k (S n)) as [->|Hne].
      * rewrite iter_step_S_last, Hn in Hs. simpl in Hs.
        rewrite Hstep in Hs. injection Hs as <-. unfold profiles.
        rewrite !firstn_all2; [reflexivity | | | |];
          rewrite ?Ez, ?Et, ?Ec, ?Ef, !length_app, ?Lz, ?Lt, ?Lc, ?Lf;
          simpl; lia.
      * rewrite (Hpre k stk) by (auto; lia).
        rewrite Ez, Et, Ec, Ef.
        rewrite !firstn_app, Lz, Lt, Lc, Lf.
        replace (k - n)%nat with 0%nat by lia. simpl.
        rewrite !app_nil_r. reflexivity.
Qed.

(** The loop with its [break]: it returns the state after [n] passes,
    where no pass before the [n]-th met the target, and the [n]-th did
    unless the budget ran out. *)
Lemma march_stops self water budget st st' :
  march A self water budget st = Some st' ->
  exists n, (n <= budget)%nat /\ (budget = 0 \/ 1 <= n)%nat /\
    iter_step A self water n st = Some st' /\
    (forall k, (1 <= k < n)%nat ->
       exists stk, iter_step A self water k st = Some stk /\
                   geb A (C_curr stk) (target_conc self) = false) /\
    ((n < budget)%nat -> geb A (C_curr st') (target_conc self) = true).
Proof.
  revert st. induction budget as [|b IH]; intros st H.
  - simpl in H. injection H as <-. exists 0%nat.
    repeat split; auto; intros; lia.
  - simpl in H. apply bind_Some in H. destruct H as (s1 & Hs1 & H).
    destruct (geb A (C_curr s1) (target_conc self)) eqn:Hge.
    + injection H as <-. exists 1%nat. simpl. rewrite Hs1. simpl.
      repeat split; auto; try lia; intros; lia.
    + destruct (IH _ H) as (n & Hn & _ & Hit & Hbefore & Hhit).
      exists (S n). simpl. rewrite Hs1. simpl.
      repeat split; auto; try lia.
      * intros k Hk. destruct k as [|[|k]]; [lia | |].
        -- exists s1. simpl. rewrite Hs1. auto.
        -- destruct (Hbefore (S k)) as (stk & Hstk & Hlt); [lia|].
           exists stk. split; [|exact Hlt].
           change (iter_step A self water (S (S k)) st)
             with (x <- march_step A self water st ;;
                   iter_step A self water (S k) x).
           rewrite Hs1. exact Hstk.
      * intros Hlt. apply Hhit. lia.
Qed.

(** [solve] unfolded: what it ran and what it returned. *)
Lemma solve_inv self r self' :
  solve A self = Some (r, self') ->
  exists water N st0 st peak,
    water_rate A self = Some water /\
    tube_count A self = Some N /\
    self' = set_N_tubes self N /\
    initial_state A self' water = Some st0 /\
    march A self' water steps st0 = Some st /\
    py_max_list A (temp_liquid st) = Some peak /\
    r = {| res_N_tubes := N;
           res_length := accumulated_length st;
           res_heat := total_heat_removed st;
           res_max_temp := peak;
           res_z := z_axis st;
           res_temp := temp_liquid st;
           res_conc := conc_liquid st;
           res_flux := flux_profile st |}.
Proof.
  unfold solve. intros H.
  apply bind_Some in H. destruct H as (water & Hw & H).
  apply bind_Some in H. destruct H as (N & HN & H).
  apply bind_Some in H. destruct H as (st0 & H0 & H).
  apply bind_Some in H. destruct H as (st & Hm & H).
  apply bind_Some in H. destruct H as (peak & Hp & H).
  injection H as <- <-.
  exists water, N, st0, st, peak. repeat split; auto.
Qed.

Lemma initial_state_empty self water st0 :
  initial_state A self water = Some st0 ->
  z_axis st0 = [] /\ temp_liquid st0 = [] /\
  conc_liquid st0 = [] /\ flux_profile st0 = [] /\
  accumulated_length st0 = of_Z A 0 /\
  total_heat_removed st0 = of_Z A 0 /\
  T_curr st0 = gas_temp self.
Proof.
  unfold initial_state. intros H. apply bind_Some in H.
  destruct H as (h & _ & H). injection H as <-. simpl. auto 10.
Qed.

(** The run behind a returned result, in terms of [state_after]. *)
Lemma solve_run self r self' :
  solve A self = Some (r, self') ->
  exists n st,
    (1 <= n <= steps)%nat /\
    state_after A self n = Some st /\
    profiles st = (res_z r, res_temp r, res_conc r, res_flux r) /\
    res_length r = accumulated_length st /\
    res_heat r = total_heat_removed st /\
    length (res_z r) = n /\ length (res_temp r) = n /\
    length (res_conc r) = n /\ length (res_flux r) = n /\
    (forall k, (1 <= k < n)%nat ->
       exists stk, state_after A self k = Some stk /\
                   geb A (C_curr stk) (target_conc self) = false) /\
    ((n < steps)%nat -> geb A (C_curr st) (target_conc self) = true).
Proof.
  intros H. destruct (solve_inv _ _ _ H)
    as (water & N & st0 & st & peak & Hw & HN & -> & H0 & Hm & _ & ->).
  destruct (march_stops _ _ _ _ _ Hm) as (n & Hn & Hpos & Hit & Hbefore & Hhit).
  destruct (initial_state_empty _ _ _ H0) as (Ez & Et & Ec & Ef & _).
  destruct (iter_step_profiles _ _ _ _ _ Hit Ez Et Ec Ef)
    as ((Lz & Lt & Lc & Lf) & _).
  assert (Hrun : forall k stk, iter_step A (set_N_tubes self N) water k st0
                               = Some stk -> state_after A self k = Some stk).
  { intros k stk Hk. unfold state_after. rewrite Hw, HN. simpl.
    rewrite H0. simpl. exact Hk. }
  exists n, st. simpl. repeat split; auto.
  - destruct Hpos as [Hpos|Hpos]; [discriminate Hpos | exact Hpos].
  - intros k Hk. destruct (Hbefore k Hk) as (stk & Hstk & Hlt). eauto.
Qed.

Lemma nth_error_snoc {X : Type} (l : list X) (x : X) :
  nth_error (l ++ [x]) (length l) = Some x.
Proof.
  rewrite nth_error_app2 by lia. rewrite Nat.sub_diag. reflexivity.
Qed.

Lemma nth_error_of_firstn {X : Type} (l p : list X) (x : X) (k : nat) :
  firstn (S k) l = p ++ [x] -> length p = k -> nth_error l k = Some x.
Proof.
  intros E L. rewrite <- (firstn_skipn (S k) l), E.
  rewrite nth_error_app1 by (rewrite length_app; simpl; lia).
  rewrite <- L. apply nth_error_snoc.
Qed.

(** The [k]-th entry of each returned profile is what the [k]-th pass
    through the loop body appended. *)
Lemma solve_entries self r self' :
  solve A self = Some (r, self') ->
  forall k, (1 <= k <= length (res_z r))%nat ->
  exists prev st water,
    state_after A self (k - 1) = Some prev /\
    state_after A self k = Some st /\
    march_step A self' water prev = Some st /\
    profiles st = (firstn k (res_z r), firstn k (res_temp r),
                   firstn k (res_conc r), firstn k (res_flux r)) /\
    nth_error (res_z r) (k - 1) = Some (accumulated_length st) /\
    nth_error (res_temp r) (k - 1) = Some (T_curr st) /\
    nth_error (res_conc r) (k - 1) = Some (mul A (C_curr st) (of_Z A 100)) /\
    exists Q_removed,
      nth_error (res_flux r) (k - 1) = Some Q_removed /\
      total_heat_removed st = add A (total_heat_removed prev) Q_removed.
Proof.
  intros H k Hk. destruct (solve_inv _ _ _ H)
    as (water & N & st0 & stn & peak & Hw & HN & -> & H0 & Hm & _ & ->).
  simpl in Hk |- *.
  destruct (march_stops _ _ _ _ _ Hm) as (n & _ & _ & Hit & _ & _).
  destruct (initial_state_empty _ _ _ H0) as (Ez & Et & Ec & Ef & _).
  destruct (iter_step_profiles _ _ _ _ _ Hit Ez Et Ec Ef)
    as ((Lz & Lt & Lc & Lf) & Hpre).
  rewrite Lz in Hk.
  destruct k as [|k]; [lia|]. replace (S k - 1)%nat with k by lia.
  destruct (iter_step_before _ _ _ _ _ (S k) Hit) as (st & Hst); [lia|].
  pose proof Hst as Hst'. rewrite iter_step_S_last in Hst'.
  apply bind_Some in Hst'. destruct Hst' as (prev & Hprev & Hstep).
  assert (Hrun : forall j stj, iter_step A (set_N_tubes self N) water j st0
                               = Some stj -> state_after A self j = Some stj).
  { intros j stj Hj. unfold state_after. rewrite Hw, HN. simpl.
    rewrite H0. simpl. exact Hj. }
  destruct (march_step_appends _ _ _ _ Hstep)
    as (_ & Az & At & Ac & Q & Af & Aq).
  destruct (iter_step_profiles _ _ _ _ _ Hprev Ez Et Ec Ef)
    as ((Pz & Pt & Pc & Pf) & _).
  pose proof (Hpre (S k) st ltac:(lia) Hst) as Hp.
  unfold profiles in Hp.
  apply pair_equal_spec in Hp. destruct Hp as (Hp & Ff).
  apply pair_equal_spec in Hp. destruct Hp as (Hp & Fc).
  apply pair_equal_spec in Hp. destruct Hp as (Fz & Ft).
  exists prev, st, water. repeat split; auto.
  - unfold profiles. congruence.
  - apply nth_error_of_firstn with (p := z_axis prev); congruence.
  - apply nth_error_of_firstn with (p := temp_liquid prev); congruence.
  - apply nth_error_of_firstn with (p := conc_liquid prev); congruence.
  - exists Q. split; [|exact Aq].
    apply nth_error_of_firstn with (p := flux_profile prev); congruence.
Qed.

(** The last concentration entry of a returned result is [C * 100] for the
    final [C_curr], which met the target unless all 60 passes were
    used. *)
Lemma solve_final_concentration self r self' :
  solve A self = Some (r, self') ->
  exists c,
    nth_error (res_conc r) (length (res_conc r) - 1)
      = Some (mul A c (of_Z A 100)) /\
    (geb A c (target_conc self) = true \/ length (res_conc r) = 60%nat).
Proof.
  intros H.
  destruct (solve_run _ _ _ H)
    as (n & st & Hn & Hst & _ & _ & _ & Lz & _ & Lc & _ & _ & Hhit).
  destruct (solve_entries _ _ _ H n)
    as (prev & st' & w & _ & Hst' & _ & _ & _ & _ & HC & _); [lia|].
  rewrite Hst in Hst'. injection Hst' as <-.
  exists (C_curr st). rewrite Lc. split; [exact HC|].
  destruct (Nat.eq_dec n 60) as [->|Hne]; [right; reflexivity|left].
  unfold steps in *. apply Hhit. lia.
Qed.

(** With no pass meeting the target, the loop goes through its whole
    budget and ends in the state after the last pass. *)
Lemma march_exhausts self water budget : forall st st',
  iter_step A self water budget st = Some st' ->
  (forall j stj, (1 <= j <= budget)%nat ->
     iter_step A self water j st = Some stj ->
     geb A (C_curr stj) (target_conc self) = false) ->
  march A self water budget st = Some st'.
Proof.
  induction budget as [|b IH]; intros st st' H Hno.
  - exact H.
  - cbn [iter_step] in H. apply bind_Some in H. destruct H as (s1 & Hs1 & H).
    cbn [march]. rewrite Hs1. cbn [bind].
    assert (H1 : geb A (C_curr s1) (target_conc self) = false).
    { apply (Hno 1%nat s1); [lia|]. cbn [iter_step]. rewrite Hs1. reflexivity. }
    rewrite H1. apply IH; [exact H|].
    intros j stj Hj Hs. apply (Hno (S j) stj); [lia|].
    cbn [iter_step]. rewrite Hs1. exact Hs.
Qed.

(** A returned run has one entry exactly when the first pass met the
    target. *)
Lemma solve_single_entry self r self' :
  solve A self = Some (r, self') ->
  length (res_conc r) = 1%nat <->
  exists st, state_after A self 1 = Some st /\
             geb A (C_curr st) (target_conc self) = true.
Proof.
  intros H.
  destruct (solve_run _ _ _ H)
    as (n & st & Hn & Hst & _ & _ & _ & _ & _ & Lc & _ & Hbefore & Hhit).
  rewrite Lc. split.
  - intros ->. exists st. split; [exact Hst|]. apply Hhit. unfold steps. lia.
  - intros (s1 & Hs1 & Hge).
    destruct (Nat.eq_dec n 1) as [E|Hne]; [exact E|exfalso].
    destruct (Hbefore 1%nat) as (s1' & Hs1' & Hlt); [lia|]. congruence.
Qed.

(** [accumulated_length] is the running sum of [L_step]. *)
Lemma state_after_length self k st :
  state_after A self k = Some st ->
  accumulated_length st = length_after A k.
Proof.
  unfold state_after. intros H.
  apply bind_Some in H. destruct H as (water & _ & H).
  apply bind_Some in H. destruct H as (N & _ & H). cbv zeta in H.
  apply bind_Some in H. destruct H as (st0 & H0 & H).
  destruct (initial_state_empty _ _ _ H0) as (_ & _ & _ & _ & E0 & _).
  revert st H. induction k as [|k IH]; intros s H.
  - simpl in H. injection H as <-. exact E0.
  - rewrite iter_step_S_last in H. apply bind_Some in H.
    destruct H as (sk & Hk & Hs).
    destruct (march_step_appends _ _ _ _ Hs) as (E & _).
    rewrite E, (IH sk Hk). reflexivity.
Qed.

(** [solve] reads nothing that an earlier call left in the object. *)
Lemma solve_set_N_tubes self n :
  solve A (set_N_tubes self n) = solve A self.
Proof. reflexivity. Qed.

Lemma built_from_fields a b c d self :
  built_from A a b c d self ->
  exists n, self = {| gas_flow := a; gas_temp := b;
                      hcl_frac := lit A 6728 10000; cw_temp := d;
                      target_conc := c; Di := lit A 20 1000;
                      N_tubes := n |}.
Proof.
  induction 1 as [|self r self' _ (n & ->) Hs|self w N _ (n & ->) _ _ _].
  - exists None. reflexivity.
  - destruct (solve_inv _ _ _ Hs) as (w & N & _ & _ & _ & _ & _ & -> & _).
    exists (Some N). reflexivity.
  - exists (Some N). reflexivity.
Qed.

(** C1.  Whenever [solve] returns, the loop has stopped at the first pass
    whose updated concentration [C_curr] met [target_conc]: with [n] the
    number of profile entries, no earlier pass met the target, the
    returned profiles are exactly those recorded up to pass [n], pass [n]
    met the target unless all 60 passes were used, and any pass that meets
    the target is at or after the last entry. *)
Theorem solve_stops_at_first_target_hit self r self' :
  solve A self = Some (r, self') ->
  let n := length (res_conc r) in
  (forall k, (1 <= k < n)%nat ->
     exists stk, state_after A self k = Some stk /\
                 geb A (C_curr stk) (target_conc self) = false) /\
  (exists st, state_after A self n = Some st /\
     profiles st = (res_z r, res_temp r, res_conc r, res_flux r) /\
     ((n < steps)%nat -> geb A (C_curr st) (target_conc self) = true)) /\
  (forall k stk, (1 <= k)%nat -> state_after A self k = Some stk ->
     geb A (C_curr stk) (target_conc self) = true -> (n <= k)%nat).
Proof.
  intros H n.
  destruct (solve_run _ _ _ H)
    as (m & st & Hm & Hst & Hp & _ & _ & _ & _ & Lc & _ & Hbefore & Hhit).
  subst n. rewrite Lc. repeat split.
  - exact Hbefore.
  - exists st. auto.
  - intros k stk Hk Hs Hge.
    destruct (Nat.le_gt_cases m k) as [Hle|Hlt]; [exact Hle|].
    destruct (Hbefore k) as (stk' & Hs' & Hlt'); [lia|]. congruence.
Qed.

(** C2.  Whenever [solve] returns, its four profile lists have one common
    length [n] with [1 <= n <= 60], and for every [k] from 1 to [n] the
    first [k] entries of the four lists are the lists as they stood after
    the [k]-th pass, whose last entries are that pass's accumulated
    length, temperature, concentration times 100 and removed heat. *)
Theorem solve_profiles_aligned self r self' :
  solve A self = Some (r, self') ->
  let n := length (res_z r) in
  length (res_temp r) = n /\ length (res_conc r) = n /\
  length (res_flux r) = n /\ (1 <= n <= 60)%nat /\
  forall k, (1 <= k <= n)%nat ->
    exists prev st,
      state_after A self (k - 1) = Some prev /\
      state_after A self k = Some st /\
      profiles st = (firstn k (res_z r), firstn k (res_temp r),
                     firstn k (res_conc r), firstn k (res_flux r)) /\
      nth_error (res_z r) (k - 1) = Some (accumulated_length st) /\
      nth_error (res_temp r) (k - 1) = Some (T_curr st) /\
      nth_error (res_conc r) (k - 1)
        = Some (mul A (C_curr st) (of_Z A 100)) /\
      exists Q_removed,
        nth_error (res_flux r) (k - 1) = Some Q_removed /\
        total_heat_removed st = add A (total_heat_removed prev) Q_removed.
Proof.
  intros H n.
  destruct (solve_run _ _ _ H)
    as (m & st & Hm & _ & _ & _ & _ & Lz & Lt & Lc & Lf & _).
  subst n. rewrite Lz, Lt, Lc, Lf. unfold steps in Hm.
  repeat split; try lia.
  intros k Hk. rewrite <- Lz in Hk.
  destruct (solve_entries _ _ _ H k Hk)
    as (prev & stk & w & H1 & H2 & _ & H3 & H4 & H5 & H6 & H7).
  exists prev, stk. auto 10.
Qed.

(** C9.  Two calls of [solve] on objects constructed from the same four
    inputs return the same result, scalars and sequences alike (or both
    raise), whether the objects are fresh or have been through earlier
    calls: nothing a call leaves behind is read by a later one. *)
Theorem solve_deterministic a b c d self1 self2 :
  built_from A a b c d self1 -> built_from A a b c d self2 ->
  option_map fst (solve A self1) = option_map fst (solve A self2).
Proof.
  intros H1 H2.
  destruct (built_from_fields _ _ _ _ _ H1) as (n1 & ->).
  destruct (built_from_fields _ _ _ _ _ H2) as (n2 & ->).
  reflexivity.
Qed.

(** C7, amended.  Not reaching the target raises nothing, in every
    arithmetic: when the 60 passes of the loop evaluate and none of them
    meets the target, [solve] returns, with the profiles of the state
    after the 60th pass, 60 entries long, the last concentration entry
    being [C * 100] for a final [C] that fails the test
    [C >= target_conc].  And whenever [solve] returns, its last
    concentration entry is [C * 100] for the final [C], and either that
    [C] met the target or there are exactly 60 entries. *)
Theorem solve_returns_without_error self :
  (forall st60,
     state_after A self 60 = Some st60 ->
     (forall j stj, (1 <= j <= 60)%nat -> state_after A self j = Some stj ->
        geb A (C_curr stj) (target_conc self) = false) ->
     exists r self',
       solve A self = Some (r, self') /\
       profiles st60 = (res_z r, res_temp r, res_conc r, res_flux r) /\
       length (res_conc r) = 60%nat /\
       nth_error (res_conc r) 59 = Some (mul A (C_curr st60) (of_Z A 100)) /\
       geb A (C_curr st60) (target_conc self) = false) /\
  (forall r self',
     solve A self = Some (r, self') ->
     exists c,
       nth_error (res_conc r) (length (res_conc r) - 1)
         = Some (mul A c (of_Z A 100)) /\
       (geb A c (target_conc self) = true \/
        length (res_conc r) = 60%nat)).
Proof.
  split; [|intros r self' H; apply (solve_final_concentration _ _ _ H)].
  intros st60 H60 Hno.
  assert (Hlast := Hno 60%nat st60 ltac:(lia) H60).
  pose proof H60 as Hrun. unfold state_after in Hrun.
  apply bind_Some in Hrun. destruct Hrun as (water & Hw & Hrun).
  apply bind_Some in Hrun. destruct Hrun as (N & HN & Hrun). cbv zeta in Hrun.
  apply bind_Some in Hrun. destruct Hrun as (st0 & H0 & Hit).
  assert (Hm : march A (set_N_tubes self N) water steps st0 = Some st60).
  { apply march_exhausts; [exact Hit|].
    intros j stj Hj Hs. apply (Hno j stj); [unfold steps in Hj; lia|].
    unfold state_after. rewrite Hw, HN. cbn [bind]. rewrite H0. exact Hs. }
  destruct (initial_state_empty _ _ _ H0) as (Ez & Et & Ec & Ef & _).
  destruct (iter_step_profiles _ _ _ _ _ Hit Ez Et Ec Ef)
    as ((Lz & Lt & Lc & Lf) & _).
  destruct (temp_liquid st60) as [|t ts] eqn:Etemp; [discriminate Lt|].
  assert (Hs : solve A self
               = Some ({| res_N_tubes := N;
                          res_length := accumulated_length st60;
                          res_heat := total_heat_removed st60;
                          res_max_temp := fold_left (py_max A) ts t;
                          res_z := z_axis st60;
                          res_temp := t :: ts;
                          res_conc := conc_liquid st60;
                          res_flux := flux_profile st60 |},
                       set_N_tubes self N)).
  { unfold solve. rewrite Hw, HN. cbn [bind]. rewrite H0. cbn [bind].
    rewrite Hm. cbn [bind]. rewrite Etemp. reflexivity. }
  eexists. eexists. split; [exact Hs|].
  cbn [res_z res_temp res_conc res_flux]. unfold profiles. rewrite Etemp.
  split; [reflexivity|]. split; [exact Lc|]. split; [|exact Hlast].
  destruct (solve_entries _ _ _ Hs 60)
    as (_ & st' & _ & _ & Hst' & _ & _ & _ & _ & HC & _).
  { cbn [res_z]. lia. }
  rewrite H60 in Hst'. injection Hst' as <-. exact HC.
Qed.

End Control.

(** ** Exact real arithmetic *)

Module RealFacts.

Import RealArith.
Local Open Scope R_scope.

Implicit Types (self : AbsorberSimulation R) (st stj sk : MarchState R).

(** *** The operations *)

Lemma R_div_ok (x y : R) : y <> 0 -> R_div x y = Some (x / y).
Proof.
  intros H. unfold R_div.
  destruct (Req_EM_T y 0); [contradiction | reflexivity].
Qed.

Lemma R_div_Some (x y z : R) : R_div x y = Some z -> y <> 0 /\ z = x / y.
Proof.
  unfold R_div. destruct (Req_EM_T y 0); [discriminate|].
  intros [= <-]. auto.
Qed.

Lemma R_pow_pos (x y : R) : 0 < x -> R_pow x y = Some (Rpower x y).
Proof.
  intros H. unfold R_pow.
  destruct (Rlt_dec 0 x); [reflexivity | contradiction].
Qed.

Lemma R_log_pos (x : R) : 0 < x -> R_log x = Some (ln x).
Proof.
  intros H. unfold R_log.
  destruct (Rlt_dec 0 x); [reflexivity | contradiction].
Qed.

Lemma R_ltb_true (x y : R) : R_ltb x y = true <-> x < y.
Proof. unfold R_ltb. destruct (Rlt_dec x y); split; auto; discriminate. Qed.

Lemma R_ltb_false (x y : R) : R_ltb x y = false <-> y <= x.
Proof.
  unfold R_ltb.
  destruct (Rlt_dec x y); split; auto; try discriminate; lra.
Qed.

Lemma py_max_R (a b : R) : py_max RArith a b = Rmax a b.
Proof.
  unfold py_max. cbn [gtb RArith]. unfold R_ltb, Rmax.
  destruct (Rlt_dec a b), (Rle_dec a b); try reflexivity; lra.
Qed.

Ltac unfold_arith :=
  cbn [num of_Z lit pi add sub mul div pow np_log np_exp ceil_int ltb gtb geb
       RArith] in *.


Lemma IZR_pos_of_ge_1 (N : Z) : (1 <= N)%Z -> 1 <= IZR N.
Proof. intros H. apply IZR_le in H. exact H. Qed.

(** *** The loop body *)

Lemma equilibrium_pressure_R_defined (temp conc : R) :
  conc < 1 / 100 \/ temp + 273 <> 0 ->
  exists P, get_equilibrium_pressure RArith temp conc = Some P.
Proof.
  unfold get_equilibrium_pressure. unfold_arith. intros H.
  destruct (R_ltb conc (1 / 100)) eqn:Hlt; [eauto|].
  apply R_ltb_false in Hlt.
  destruct H as [H|H]; [lra|].
  rewrite R_div_ok by exact H. cbn [bind].
  rewrite R_log_pos by lra. cbn [bind]. eauto.
Qed.

Lemma equilibrium_pressure_R_Some (temp conc P : R) :
  get_equilibrium_pressure RArith temp conc = Some P ->
  conc < 1 / 100 \/ temp + 273 <> 0.
Proof.
  unfold get_equilibrium_pressure. unfold_arith. intros H.
  destruct (R_ltb conc (1 / 100)) eqn:Hlt.
  - left. apply R_ltb_true, Hlt.
  - right. apply bind_Some in H. destruct H as (q & Hq & _).
    apply R_div_Some in Hq. tauto.
Qed.

(** One pass through the loop body on reals: when it is defined, and what
    it does to the absorbed mass, the concentration and the heat. *)
Lemma march_step_R self water st N :
  N_tubes self = Some N -> (1 <= N)%Z -> 0 < Di self -> 0 < gas_flow self ->
  0 < water -> 0 < current_hcl_mass st ->
  C_curr st < 1 / 100 \/ T_curr st + 273 <> 0 ->
  exists st' mass kappa,
    march_step RArith self water st = Some st' /\
    0 <= mass /\ 0 < kappa /\
    current_hcl_mass st' = current_hcl_mass st + mass * 3600 /\
    C_curr st' = current_hcl_mass st' / (current_hcl_mass st' + water) /\
    flux_profile st' =
      flux_profile st ++ [kappa * (T_curr st - cw_temp self)] /\
    total_heat_removed st' =
      total_heat_removed st + kappa * (T_curr st - cw_temp self).
Proof.
  intros HN HN1 HDi Hgf Hw Hh HT.
  unfold march_step. unfold_arith. rewrite HN. cbn [bind].
  unfold L_step. unfold_arith.
  set (h := current_hcl_mass st) in *.
  assert (HNR : 1 <= IZR N) by (apply IZR_pos_of_ge_1; exact HN1).
  assert (Hpi := PI_RGT_0).
  assert (Hper : 0 < PI * Di self * IZR N).
  { apply Rmult_lt_0_compat; [apply Rmult_lt_0_compat|]; lra. }
  assert (Harea : 0 < PI * Di self * (1 / 10) * IZR N).
  { apply Rmult_lt_0_compat; [apply Rmult_lt_0_compat;
      [apply Rmult_lt_0_compat|]|]; lra. }
  rewrite (R_div_ok (water + h) 3600) by lra. cbn [bind].
  assert (Hm : 0 < (water + h) / 3600) by (apply Rdiv_lt_0_compat; lra).
  rewrite (R_div_ok _ (PI * Di self * IZR N)) by lra. cbn [bind].
  set (gamma := (water + h) / 3600 / (PI * Di self * IZR N)).
  assert (Hgamma : 0 < gamma) by (apply Rdiv_lt_0_compat; lra).
  rewrite (R_div_ok (4 * gamma)) by lra. cbn [bind].
  assert (HRe : 0 < 4 * gamma / (8 / 10000)) by (apply Rdiv_lt_0_compat; lra).
  rewrite (R_div_ok (-1) 3) by lra. cbn [bind].
  rewrite R_pow_pos by exact HRe. cbn [bind].
  set (p := Rpower (4 * gamma / (8 / 10000)) (-1 / 3)).
  rewrite (R_div_ok (gas_flow self) 3600) by lra. cbn [bind].
  assert (Hg : 0 < gas_flow self / 3600) by (apply Rdiv_lt_0_compat; lra).
  rewrite (R_div_ok h) by lra. cbn [bind].
  destruct (equilibrium_pressure_R_defined _ _ HT) as (P & HP).
  rewrite HP. cbn [bind].
  rewrite !py_max_R.
  set (df := Rmax 0 (h / (h + gas_flow self / 3600) * 101325 - P)).
  assert (Hdf : 0 <= df) by apply Rmax_l.
  rewrite (R_div_ok _ 1000) by lra. cbn [bind].
  set (mass := 25 / 100000 * df * (PI * Di self * (1 / 10) * IZR N)
               * (365 / 10) / 1000).
  assert (Hmass : 0 <= mass).
  { unfold mass. apply Rmult_le_pos; [|lra].
    apply Rmult_le_pos; [|lra]. apply Rmult_le_pos; [|lra].
    apply Rmult_le_pos; lra. }
  set (hf := Rmax 500 (1200 * p)).
  assert (Hhf : 500 <= hf) by apply Rmax_l.
  rewrite (R_div_ok 1 hf) by lra. cbn [bind].
  rewrite (R_div_ok 1 2000) by lra. cbn [bind].
  rewrite (R_div_ok (5 / 1000) 150) by lra. cbn [bind].
  assert (Hr1 : 0 < 1 / hf) by (apply Rdiv_lt_0_compat; lra).
  set (rs := 1 / hf + 1 / 2000 + 5 / 1000 / 150).
  assert (Hrs : 0 < rs) by (unfold rs; lra).
  rewrite (R_div_ok (10 / 10) rs) by lra. cbn [bind].
  assert (Hu : 0 < 10 / 10 / rs) by (apply Rdiv_lt_0_compat; lra).
  rewrite (R_div_ok _ 1000) by lra. cbn [bind].
  rewrite (R_div_ok _ ((water + h) / 3600 * (418 / 100))) by nra. cbn [bind].
  rewrite (R_div_ok (h + mass * 3600)) by nra. cbn [bind].
  set (kappa := 10 / 10 / rs * 1000 * (PI * Di self * (1 / 10) * IZR N) / 1000).
  assert (Hkappa : 0 < kappa).
  { unfold kappa. apply Rdiv_lt_0_compat; [|lra].
    apply Rmult_lt_0_compat; [|exact Harea].
    apply Rmult_lt_0_compat; lra. }
  assert (HQ : 10 / 10 / rs * 1000 * (PI * Di self * (1 / 10) * IZR N)
               * (T_curr st - cw_temp self) / 1000
               = kappa * (T_curr st - cw_temp self)).
  { unfold kappa. field. lra. }
  rewrite HQ.
  eexists. exists mass, kappa. split; [reflexivity|]. cbn.
  repeat split; auto.
Qed.

Lemma march_step_R_Some self water st st' :
  march_step RArith self water st = Some st' ->
  C_curr st < 1 / 100 \/ T_curr st + 273 <> 0.
Proof.
  unfold march_step. intros H. inv_bind H.
  eapply equilibrium_pressure_R_Some. eassumption.
Qed.

Lemma march_step_R_facts self water st st' N :
  N_tubes self = Some N -> (1 <= N)%Z -> 0 < Di self -> 0 < gas_flow self ->
  0 < water -> 0 < current_hcl_mass st ->
  march_step RArith self water st = Some st' ->
  exists mass kappa,
    0 <= mass /\ 0 < kappa /\
    current_hcl_mass st' = current_hcl_mass st + mass * 3600 /\
    C_curr st' = current_hcl_mass st' / (current_hcl_mass st' + water) /\
    flux_profile st' =
      flux_profile st ++ [kappa * (T_curr st - cw_temp self)] /\
    total_heat_removed st' =
      total_heat_removed st + kappa * (T_curr st - cw_temp self).
Proof.
  intros HN HN1 HDi Hgf Hw Hh H.
  destruct (march_step_R self water st N HN HN1 HDi Hgf Hw Hh
              (march_step_R_Some _ _ _ _ H))
    as (st'' & mass & kappa & E & F).
  rewrite H in E. injection E as <-. eauto.
Qed.

(** *** The prelude of [solve], for an object out of [__init__] *)

Lemma tube_count_R gf gt tc cw :
  tube_count RArith (init RArith gf gt tc cw) = Some (Zceil (tube_quotient gf)).
Proof.
  unfold tube_count, init, tube_quotient. unfold_arith.
  cbn [gas_flow Di].
  rewrite (R_div_ok gf 3600) by lra. cbn [bind].
  rewrite (R_div_ok _ (242 / 100)) by lra. cbn [bind].
  rewrite (R_div_ok _ (160 / 10)) by lra. cbn [bind].
  rewrite (R_div_ok _ 2) by lra. cbn [bind].
  rewrite R_pow_pos by lra. cbn [bind].
  replace 2 with (INR 2) at 2 by (simpl; lra).
  rewrite Rpower_pow by lra.
  assert (Hpi := PI_RGT_0).
  rewrite R_div_ok by nra. reflexivity.
Qed.

Lemma tube_quotient_pos gf : 0 < gf -> 0 < tube_quotient gf.
Proof.
  intros H. assert (Hpi := PI_RGT_0). unfold tube_quotient.
  apply Rdiv_lt_0_compat; [|nra].
  repeat apply Rdiv_lt_0_compat; lra.
Qed.

Lemma Zceil_pos x : 0 < x -> (1 <= Zceil x)%Z.
Proof.
  intros H. destruct (Zceil_bound x) as (_ & Hx).
  assert (0 < IZR (Zceil x)) by lra.
  apply lt_IZR in H0. lia.
Qed.

Lemma water_rate_R gf gt tc cw :
  tc <> 0 ->
  water_rate RArith (init RArith gf gt tc cw)
  = Some (gf * (6728 / 10000) / tc * (1 - tc)).
Proof.
  intros H. unfold water_rate, init. unfold_arith.
  cbn [gas_flow hcl_frac target_conc].
  rewrite R_div_ok by exact H. reflexivity.
Qed.

Lemma water_rate_R_pos gf tc :
  0 < gf -> 0 < tc < 1 -> 0 < gf * (6728 / 10000) / tc * (1 - tc).
Proof.
  intros Hg Ht. apply Rmult_lt_0_compat; [|lra].
  apply Rdiv_lt_0_compat; lra.
Qed.

Lemma initial_state_R (self : AbsorberSimulation R) water :
  initial_state RArith self water =
  Some {| T_curr := gas_temp self;
          C_curr := 5 / 100;
          current_hcl_mass := water * (5 / 100) / (95 / 100);
          accumulated_length := 0;
          total_heat_removed := 0;
          z_axis := [];
          temp_liquid := [];
          conc_liquid := [];
          flux_profile := [] |}.
Proof.
  unfold initial_state. unfold_arith.
  rewrite R_div_ok by lra. reflexivity.
Qed.

(** *** The mass fraction [h / (h + w)] *)

Lemma frac_mono (w h h' : R) :
  0 < w -> 0 < h -> h <= h' -> h / (h + w) <= h' / (h' + w).
Proof.
  intros Hw Hh Hle.
  assert (E : h' / (h' + w) - h / (h + w)
              = w * (h' - h) / ((h' + w) * (h + w))) by (field; lra).
  assert (0 <= w * (h' - h) / ((h' + w) * (h + w))).
  { apply Rmult_le_pos; [nra|]. apply Rlt_le, Rinv_0_lt_compat. nra. }
  lra.
Qed.

Lemma frac_bounds (w h : R) : 0 < w -> 0 < h -> 0 < h / (h + w) < 1.
Proof.
  intros Hw Hh. split.
  - apply Rdiv_lt_0_compat; lra.
  - apply Rmult_lt_reg_r with (h + w); [lra|].
    unfold Rdiv. rewrite Rmult_assoc, Rinv_l by lra. lra.
Qed.

Lemma seed_fraction (w : R) :
  0 < w ->
  w * (5 / 100) / (95 / 100) / (w * (5 / 100) / (95 / 100) + w) = 5 / 100.
Proof. intros H. field. lra. Qed.

(** *** A run on inputs with [gas_flow > 0] and [0 < target_conc < 1] *)

Section RealRun.

Variables gf gt tc cw : R.
Hypothesis Hgf : 0 < gf.
Hypothesis Htc : 0 < tc < 1.

Local Abbreviation self0 := (init RArith gf gt tc cw).
Local Abbreviation water0 := (gf * (6728 / 10000) / tc * (1 - tc)).
Local Abbreviation N0 := (Zceil (tube_quotient gf)).
Local Abbreviation self1 := (set_N_tubes (init RArith gf gt tc cw) N0).
Local Abbreviation hcl0 := (water0 * (5 / 100) / (95 / 100)).
Local Abbreviation st0 :=
  {| T_curr := gt; C_curr := 5 / 100; current_hcl_mass := hcl0;
     accumulated_length := 0; total_heat_removed := 0;
     z_axis := []; temp_liquid := []; conc_liquid := [];
     flux_profile := [] |}.

Lemma state_after_R k :
  state_after RArith self0 k = iter_step RArith self1 water0 k st0.
Proof.
  unfold state_after. rewrite water_rate_R by lra. cbn [bind].
  rewrite tube_count_R. cbn [bind]. rewrite initial_state_R. reflexivity.
Qed.

Lemma water0_pos : 0 < water0.
Proof. apply water_rate_R_pos; assumption. Qed.

Lemma N0_pos : (1 <= N0)%Z.
Proof. apply Zceil_pos, tube_quotient_pos, Hgf. Qed.

Lemma run_inv_start : run_inv gf tc st0.
Proof.
  assert (Hw := water0_pos). split; [apply Rle_refl|].
  cbn [C_curr current_hcl_mass]. symmetry. apply seed_fraction, Hw.
Qed.

Lemma hcl0_pos : 0 < hcl0.
Proof. assert (Hw := water0_pos). lra. Qed.

Lemma run_step st st' :
  run_inv gf tc st -> march_step RArith self1 water0 st = Some st' ->
  run_inv gf tc st' /\
  exists mass kappa,
    0 <= mass /\ 0 < kappa /\
    current_hcl_mass st' = current_hcl_mass st + mass * 3600 /\
    C_curr st <= C_curr st' /\
    flux_profile st' = flux_profile st ++ [kappa * (T_curr st - cw)] /\
    total_heat_removed st' = total_heat_removed st + kappa * (T_curr st - cw).
Proof.
  intros (Hh & HC) H. assert (Hw := water0_pos). assert (H0 := hcl0_pos).
  destruct (march_step_R_facts self1 water0 st st' N0) as
    (mass & kappa & Hm & Hk & Eh & EC & Ef & Et); auto.
  - apply N0_pos.
  - cbn. lra.
  - lra.
  - split; [split |].
    + rewrite Eh. nra.
    + exact EC.
    + exists mass, kappa. repeat split; auto.
      rewrite HC, EC. apply frac_mono; [lra | lra | rewrite Eh; nra].
Qed.

Lemma run_inv_after k st :
  iter_step RArith self1 water0 k st0 = Some st -> run_inv gf tc st.
Proof.
  revert st. induction k as [|k IH]; intros st H.
  - simpl in H. injection H as <-. apply run_inv_start.
  - rewrite iter_step_S_last in H. apply bind_Some in H.
    destruct H as (sk & Hk & Hs). apply (run_step sk st); auto.
Qed.

Lemma run_inv_bounds st :
  run_inv gf tc st -> 5 / 100 <= C_curr st /\ 0 < C_curr st < 1.
Proof.
  intros (Hh & HC). assert (Hw := water0_pos). assert (H0 := hcl0_pos).
  rewrite HC. split.
  - rewrite <- (seed_fraction water0 Hw) at 1. apply frac_mono; lra.
  - apply frac_bounds; lra.
Qed.

Lemma run_step_defined st :
  run_inv gf tc st -> T_curr st + 273 <> 0 ->
  exists st', march_step RArith self1 water0 st = Some st'.
Proof.
  intros (Hh & HC) HT. assert (Hw := water0_pos). assert (H0 := hcl0_pos).
  destruct (march_step_R self1 water0 st N0) as (st' & _ & _ & H & _); auto.
  - apply N0_pos.
  - cbn. lra.
  - lra.
  - eauto.
Qed.

(** The loop returns when the temperature stays off the singularity. *)
Lemma march_R_defined b : forall k st,
  (k + b = steps)%nat ->
  iter_step RArith self1 water0 k st0 = Some st ->
  (forall j stj, (1 <= j <= k)%nat ->
     iter_step RArith self1 water0 j st0 = Some stj ->
     geb RArith (C_curr stj) tc = false) ->
  no_singular_temperature self0 ->
  exists st', march RArith self1 water0 b st = Some st'.
Proof.
  induction b as [|b IH]; intros k st Hk Hst Hno HT.
  - simpl. eauto.
  - assert (Ht : T_curr st + 273 <> 0).
    { apply (HT k st); [lia | rewrite state_after_R; exact Hst |].
      intros j stj Hj Hs. rewrite state_after_R in Hs. cbn.
      apply (Hno j stj Hj Hs). }
    destruct (run_step_defined st (run_inv_after k st Hst) Ht) as (s1 & Hs1).
    cbn [march]. rewrite Hs1. cbn [bind target_conc set_N_tubes init].
    destruct (geb RArith _ tc) eqn:Hge; [eauto|].
    assert (Hnext : iter_step RArith self1 water0 (S k) st0 = Some s1).
    { rewrite iter_step_S_last, Hst. exact Hs1. }
    apply (IH (S k) s1); auto; [lia|].
    intros j stj Hj Hs. destruct (Nat.eq_dec j (S k)) as [->|Hne].
    + rewrite Hnext in Hs. injection Hs as <-. exact Hge.
    + apply (Hno j stj); [lia | exact Hs].
Qed.

Lemma solve_R_defined :
  no_singular_temperature self0 ->
  exists r self', solve RArith self0 = Some (r, self').
Proof.
  intros HT. unfold solve. rewrite water_rate_R by lra. cbn [bind].
  rewrite tube_count_R. cbn [bind]. rewrite initial_state_R. cbn [bind].
  destruct (march_R_defined steps 0 st0) as (st & Hst); auto.
  { intros j stj Hj. lia. }
  cbn [gas_temp init set_N_tubes] in Hst |- *. rewrite Hst. cbn [bind].
  destruct (march_stops _ _ _ _ _ _ Hst) as (n & _ & [Hn|Hn] & Hit & _);
    [discriminate Hn|].
  destruct (iter_step_profiles _ _ _ _ _ _ Hit
              eq_refl eq_refl eq_refl eq_refl)
    as ((_ & Lt & _) & _).
  change (num RArith) with R in *.
  destruct (temp_liquid st) as [|t ts]; [simpl in Lt; lia|].
  simpl. eauto.
Qed.

End RealRun.

(** *** Targets at or below the seed concentration *)

Lemma geb_R_true (x y : R) : geb RArith x y = true <-> y <= x.
Proof.
  cbn [geb RArith]. rewrite negb_true_iff. apply R_ltb_false.
Qed.

Lemma geb_R_false (x y : R) : geb RArith x y = false <-> x < y.
Proof.
  cbn [geb RArith]. rewrite negb_false_iff. apply R_ltb_true.
Qed.

(** With a target at or below the seed concentration the loop makes one
    pass. *)
Lemma low_target_single_pass gf gt tc cw r self' :
  0 < gf -> 0 < tc <= 5 / 100 ->
  solve RArith (init RArith gf gt tc cw) = Some (r, self') ->
  length (res_z r) = 1%nat /\ length (res_temp r) = 1%nat /\
  length (res_conc r) = 1%nat /\ length (res_flux r) = 1%nat.
Proof.
  intros Hgf Htc H.
  destruct (solve_run _ _ _ _ H)
    as (n & st & Hn & _ & _ & _ & _ & Lz & Lt & Lc & Lf & Hbefore & _).
  assert (n = 1%nat) as ->; [|auto].
  destruct (Nat.eq_dec n 1) as [|Hne]; [assumption|exfalso].
  destruct (Hbefore 1%nat) as (s1 & Hs1 & Hlt); [lia|].
  rewrite state_after_R in Hs1 by lra.
  apply run_inv_after in Hs1; [|assumption|lra].
  apply run_inv_bounds in Hs1; [|assumption|lra].
  cbn [target_conc init] in Hlt. apply geb_R_false in Hlt.
  change (num RArith) with R in *. lra.
Qed.

Lemma low_target_no_singular gf gt tc cw :
  0 < gf -> 0 < tc <= 5 / 100 -> gt + 273 <> 0 ->
  no_singular_temperature (init RArith gf gt tc cw).
Proof.
  intros Hgf Htc HT k st Hk Hst Hno.
  destruct k as [|k].
  - rewrite state_after_R in Hst by lra. simpl in Hst.
    injection Hst as <-. exact HT.
  - exfalso. rewrite state_after_R in Hst by lra.
    destruct (iter_step_before _ _ _ _ _ _ 1%nat Hst) as (s1 & Hs1); [lia|].
    assert (Hlt : geb RArith (C_curr s1) tc = false).
    { apply (Hno 1%nat s1); [lia|]. rewrite state_after_R by lra. exact Hs1. }
    apply run_inv_after in Hs1; [|assumption|lra].
    apply run_inv_bounds in Hs1; [|assumption|lra].
    apply geb_R_false in Hlt. change (num RArith) with R in *. lra.
Qed.

Lemma low_target_returns gf gt tc cw :
  0 < gf -> 0 < tc <= 5 / 100 -> gt + 273 <> 0 ->
  exists r self', solve RArith (init RArith gf gt tc cw) = Some (r, self').
Proof.
  intros Hgf Htc HT. apply solve_R_defined; [assumption | lra |].
  apply low_target_no_singular; assumption.
Qed.

(** C3, amended.  For inputs with [gas_flow > 0] and
    [0 < target_conc < 1], in exact arithmetic: the concentration [C_curr]
    before and after any pass through the loop body lies between 0 and 1,
    and the pass does not decrease it; nor does it decrease the absorbed
    mass, the driving force being floored at zero. *)
Theorem concentration_bounded_and_monotone gf gt tc cw k st st' :
  0 < gf -> 0 < tc < 1 ->
  state_after RArith (init RArith gf gt tc cw) k = Some st ->
  state_after RArith (init RArith gf gt tc cw) (S k) = Some st' ->
  0 <= C_curr st <= 1 /\ 0 <= C_curr st' <= 1 /\ C_curr st <= C_curr st' /\
  current_hcl_mass st <= current_hcl_mass st'.
Proof.
  intros Hgf Htc Hk HSk.
  rewrite state_after_R in Hk, HSk by lra.
  rewrite iter_step_S_last, Hk in HSk. cbn [bind] in HSk.
  pose proof (run_inv_after gf gt tc cw Hgf Htc k st Hk) as Hi.
  destruct (run_step gf gt tc cw Hgf Htc st st' Hi HSk)
    as (Hi' & mass & kappa & Hmass & _ & Hh & Hmono & _).
  apply run_inv_bounds in Hi, Hi'; try assumption.
  rewrite Hh. repeat split; try lra; nra.
Qed.

Lemma concentration_bounded_and_monotone_witness :
  exists st st',
    state_after RArith (init RArith 2500 10 (32 / 100) 32) 0 = Some st /\
    state_after RArith (init RArith 2500 10 (32 / 100) 32) 1 = Some st' /\
    0 <= C_curr st <= 1 /\ 0 <= C_curr st' <= 1 /\ C_curr st <= C_curr st' /\
    current_hcl_mass st <= current_hcl_mass st'.
Proof.
  assert (Hgf : 0 < 2500) by lra.
  assert (Htc : 0 < 32 / 100 < 1) by lra.
  assert (H0 := state_after_R 2500 10 (32 / 100) 32 Htc 0).
  cbn [iter_step] in H0.
  match type of H0 with _ = Some ?s =>
    destruct (run_step_defined 2500 10 (32 / 100) 32 Hgf Htc s) as (st' & H1)
  end.
  { apply run_inv_start; assumption. }
  { cbn [T_curr]. lra. }
  assert (HS : state_after RArith (init RArith 2500 10 (32 / 100) 32) 1
               = Some st').
  { rewrite state_after_R by lra. cbn [iter_step]. rewrite H1. reflexivity. }
  eexists. exists st'. split; [exact H0|]. split; [exact HS|].
  exact (concentration_bounded_and_monotone 2500 10 (32 / 100) 32 0 _ st'
           Hgf Htc H0 HS).
Defined.

(** C4.  [get_equilibrium_pressure temp conc] is a function of its two
    arguments alone.  In every arithmetic it returns 0 whenever the test
    [conc < 0.01] holds, whatever [temp].  In exact arithmetic it returns
    0 when [conc < 0.01] and otherwise
    [exp (10.5 - 2500 / (temp + 273) + 2 * ln conc) * 133.322], for every
    [temp] at which that expression is defined; at [temp = -273] the
    division of line 19 raises. *)
Theorem equilibrium_pressure_formula :
  (forall (A : Arith) (temp conc : num A),
     ltb A conc (lit A 1 100) = true ->
     get_equilibrium_pressure A temp conc = Some (of_Z A 0)) /\
  (forall temp conc : R,
     (conc < 1 / 100 ->
      get_equilibrium_pressure RArith temp conc = Some 0) /\
     (1 / 100 <= conc -> temp + 273 <> 0 ->
      get_equilibrium_pressure RArith temp conc =
      Some (exp (105 / 10 - 2500 / (temp + 273) + 2 * ln conc)
            * (133322 / 1000))) /\
     (1 / 100 <= conc -> temp + 273 = 0 ->
      get_equilibrium_pressure RArith temp conc = None)).
Proof.
  split.
  - intros A temp conc H. unfold get_equilibrium_pressure.
    rewrite H. reflexivity.
  - intros temp conc.
    unfold get_equilibrium_pressure. unfold_arith. repeat split.
    + intros H. apply R_ltb_true in H. rewrite H. reflexivity.
    + intros H HT. apply R_ltb_false in H. rewrite H.
      rewrite R_div_ok by exact HT. cbn [bind].
      rewrite R_log_pos by (apply R_ltb_false in H; lra). reflexivity.
    + intros H HT. apply R_ltb_false in H. rewrite H.
      unfold R_div.
      destruct (Req_EM_T (temp + 273) 0); [reflexivity | contradiction].
Qed.

Lemma equilibrium_pressure_formula_witness :
  get_equilibrium_pressure RArith 10 (5 / 1000) = Some 0 /\
  get_equilibrium_pressure RArith 10 (5 / 100) =
    Some (exp (105 / 10 - 2500 / (10 + 273) + 2 * ln (5 / 100))
          * (133322 / 1000)) /\
  get_equilibrium_pressure RArith (-273) (5 / 100) = None /\
  get_equilibrium_pressure Runs.F (of_Z Runs.F (-273)) (lit Runs.F 5 1000)
    = Some (of_Z Runs.F 0).
Proof.
  destruct equilibrium_pressure_formula as (Hany & Hreal).
  split; [|split; [|split]].
  - apply (Hreal 10 (5 / 1000)). lra.
  - apply (Hreal 10 (5 / 100)); lra.
  - apply (Hreal (-273) (5 / 100)); lra.
  - apply (Hany Runs.F). vm_compute. reflexivity.
Defined.

(** C5, amended.  In exact arithmetic the tube count that [solve] computes,
    returns and stores in the object is the ceiling of
    [gas_flow / 3600 / 2.42 / 16.0 / (pi * (0.020 / 2) ^ 2)], the integer
    [n] with [n - 1 < quotient <= n]; it is at least 1 when
    [gas_flow > 0]. *)
Theorem tube_count_is_ceiling gf gt tc cw :
  exists n,
    tube_count RArith (init RArith gf gt tc cw) = Some n /\
    IZR n - 1 < tube_quotient gf <= IZR n /\
    (0 < gf -> (1 <= n)%Z) /\
    (forall r self', solve RArith (init RArith gf gt tc cw) = Some (r, self') ->
       res_N_tubes r = n /\ N_tubes self' = Some n).
Proof.
  exists (Zceil (tube_quotient gf)). split; [apply tube_count_R|].
  split; [apply Zceil_bound|]. split.
  - intros H. apply Zceil_pos, tube_quotient_pos, H.
  - intros r self' H.
    destruct (solve_inv _ _ _ _ H)
      as (w & N & s0 & st & peak & _ & HN & -> & _ & _ & _ & ->).
    rewrite tube_count_R in HN. injection HN as <-. auto.
Qed.

Lemma tube_count_is_ceiling_witness :
  exists n r self',
    solve RArith (init RArith 2500 10 (5 / 100) 32) = Some (r, self') /\
    tube_count RArith (init RArith 2500 10 (5 / 100) 32) = Some n /\
    IZR n - 1 < tube_quotient 2500 <= IZR n /\
    (1 <= n)%Z /\ res_N_tubes r = n /\ N_tubes self' = Some n.
Proof.
  destruct (low_target_returns 2500 10 (5 / 100) 32) as (r & self' & H);
    try lra.
  destruct (tube_count_is_ceiling 2500 10 (5 / 100) 32)
    as (n & Hn & Hb & Hpos & Hs).
  exists n, r, self'. split; [exact H|]. split; [exact Hn|].
  split; [exact Hb|]. split; [apply Hpos; lra|]. exact (Hs r self' H).
Defined.

(** C8, amended.  In every arithmetic a result of [solve] has at least
    one entry in each profile, and exactly one if and only if the
    concentration after the first pass met the test [C >= target_conc] of
    line 69.  In exact arithmetic, with [gas_flow > 0] and a target equal
    to the seed concentration 0.05, that test is always met: every result
    of [solve] has exactly one entry in each profile, and [solve] does
    return whenever the gas temperature is not -273 C. *)
Theorem seed_target_single_entry :
  (forall (A : Arith) (self self' : AbsorberSimulation (num A)) r,
     solve A self = Some (r, self') ->
     (1 <= length (res_conc r))%nat /\
     length (res_z r) = length (res_conc r) /\
     length (res_temp r) = length (res_conc r) /\
     length (res_flux r) = length (res_conc r) /\
     (length (res_conc r) = 1%nat <->
      exists s : MarchState (num A),
        state_after A self 1 = Some s /\
        geb A (C_curr s) (target_conc self) = true)) /\
  (forall gf gt cw,
     0 < gf ->
     (forall r self',
        solve RArith (init RArith gf gt (5 / 100) cw) = Some (r, self') ->
        length (res_z r) = 1%nat /\ length (res_temp r) = 1%nat /\
        length (res_conc r) = 1%nat /\ length (res_flux r) = 1%nat) /\
     (gt + 273 <> 0 ->
      exists r self',
        solve RArith (init RArith gf gt (5 / 100) cw) = Some (r, self'))).
Proof.
  split.
  - intros A self self' r H.
    destruct (solve_run _ _ _ _ H)
      as (n & s & Hn & _ & _ & _ & _ & Lz & Lt & Lc & Lf & _).
    rewrite Lz, Lt, Lf, Lc. repeat split; try lia;
      rewrite <- Lc; apply (solve_single_entry _ _ _ _ H).
  - intros gf gt cw Hgf. split.
    + intros r self' H.
      apply (low_target_single_pass gf gt (5 / 100) cw r self'); auto; lra.
    + intros HT. apply low_target_returns; auto; lra.
Qed.

Lemma seed_target_single_entry_witness :
  (exists r self',
     solve RArith (init RArith 2500 10 (5 / 100) 32) = Some (r, self') /\
     length (res_z r) = 1%nat /\ length (res_temp r) = 1%nat /\
     length (res_conc r) = 1%nat /\ length (res_flux r) = 1%nat) /\
  (exists r (obj : AbsorberSimulation (num Runs.F)),
     solve Runs.F Runs.seed_inputs = Some (r, obj) /\
     length (res_conc r) = 1%nat /\
     exists s : MarchState (num Runs.F),
       state_after Runs.F Runs.seed_inputs 1 = Some s /\
       geb Runs.F (C_curr s) (target_conc Runs.seed_inputs) = true).
Proof.
  destruct seed_target_single_entry as (Hany & Hreal). split.
  - destruct (Hreal 2500 10 32) as (H1 & H2); [lra|].
    destruct H2 as (r & self' & H); [lra|].
    exists r, self'. split; [exact H|]. exact (H1 r self' H).
  - eexists. eexists. split; [vm_compute; reflexivity|].
    split; [reflexivity|].
    assert (H := Hany Runs.F Runs.seed_inputs _ _
                   ltac:(vm_compute; reflexivity)).
    destruct H as (_ & _ & _ & _ & H). apply H. reflexivity.
Defined.

(** C10, amended.  In exact arithmetic, for inputs with [gas_flow > 0] and
    [0 < target_conc < 1]: the heat-flux entry a pass appends, which is
    also what it adds to the total heat removed, is negative, zero or
    positive as the liquid temperature at the start of the pass is below,
    at or above [cw_temp]; nothing floors it at zero.  So when the gas
    enters colder than the cooling water the first entry is negative, and
    so is the returned total of a one-entry run. *)
Theorem heat_flux_sign gf gt tc cw :
  0 < gf -> 0 < tc < 1 ->
  (forall k st st',
     state_after RArith (init RArith gf gt tc cw) k = Some st ->
     state_after RArith (init RArith gf gt tc cw) (S k) = Some st' ->
     exists Q_removed,
       flux_profile st' = flux_profile st ++ [Q_removed] /\
       total_heat_removed st' = total_heat_removed st + Q_removed /\
       (T_curr st < cw -> Q_removed < 0) /\
       (T_curr st = cw -> Q_removed = 0) /\
       (cw < T_curr st -> 0 < Q_removed)) /\
  (gt < cw ->
   forall r self',
     solve RArith (init RArith gf gt tc cw) = Some (r, self') ->
     exists q rest,
       res_flux r = q :: rest /\ q < 0 /\ (rest = [] -> res_heat r < 0)).
Proof.
  intros Hgf Htc.
  assert (Hstep : forall k st st',
     state_after RArith (init RArith gf gt tc cw) k = Some st ->
     state_after RArith (init RArith gf gt tc cw) (S k) = Some st' ->
     exists Q_removed,
       flux_profile st' = flux_profile st ++ [Q_removed] /\
       total_heat_removed st' = total_heat_removed st + Q_removed /\
       (T_curr st < cw -> Q_removed < 0) /\
       (T_curr st = cw -> Q_removed = 0) /\
       (cw < T_curr st -> 0 < Q_removed)).
  { intros k st st' Hk HSk.
    rewrite state_after_R in Hk, HSk by lra.
    rewrite iter_step_S_last, Hk in HSk. cbn [bind] in HSk.
    pose proof (run_inv_after gf gt tc cw Hgf Htc k st Hk) as Hi.
    destruct (run_step gf gt tc cw Hgf Htc st st' Hi HSk)
      as (_ & mass & kappa & _ & Hkappa & _ & _ & Hf & Ht).
    exists (kappa * (T_curr st - cw)). repeat split; auto.
    - intros H. nra.
    - intros ->. lra.
    - intros H. nra. }
  split; [exact Hstep|].
  intros Hcold r self' H.
  destruct (solve_run _ _ _ _ H)
    as (n & st & Hn & Hst & Hp & _ & Hheat & _ & _ & _ & Lf & _).
  pose proof Hst as Hit. rewrite state_after_R in Hit by lra.
  destruct (iter_step_before _ _ _ _ _ _ 1%nat Hit) as (s1 & Hs1); [lia|].
  assert (Hs1' : state_after RArith (init RArith gf gt tc cw) 1 = Some s1)
    by (rewrite state_after_R by lra; exact Hs1).
  assert (Hs0 := state_after_R gf gt tc cw Htc 0). cbn [iter_step] in Hs0.
  destruct (Hstep 0%nat _ s1 Hs0 Hs1') as (Q & Hf & Ht & Hneg & _).
  cbn [flux_profile total_heat_removed T_curr app] in Hf, Ht, Hneg.
  specialize (Hneg Hcold).
  destruct (iter_step_profiles _ _ _ _ _ _ Hit eq_refl eq_refl eq_refl eq_refl)
    as (_ & Hpre).
  specialize (Hpre 1%nat s1 ltac:(lia) Hs1).
  unfold profiles in Hp, Hpre.
  apply pair_equal_spec in Hp. destruct Hp as (_ & Hp).
  apply pair_equal_spec in Hpre. destruct Hpre as (_ & Hpre).
  change (num RArith) with R in *. rewrite Hf, Hp in Hpre.
  destruct (res_flux r) as [|q rest] eqn:Er; [simpl in Lf; lia|].
  exists q, rest. cbn [firstn] in Hpre. injection Hpre as <-.
  repeat split; auto.
  intros ->. simpl in Lf. subst n.
  rewrite Hs1 in Hit. injection Hit as <-. rewrite Hheat, Ht. lra.
Qed.

Lemma first_pass_defined gf gt tc cw :
  0 < gf -> 0 < tc < 1 -> gt + 273 <> 0 ->
  exists st st',
    state_after RArith (init RArith gf gt tc cw) 0 = Some st /\
    state_after RArith (init RArith gf gt tc cw) 1 = Some st'.
Proof.
  intros Hgf Htc HT.
  assert (H0 := state_after_R gf gt tc cw Htc 0). cbn [iter_step] in H0.
  match type of H0 with _ = Some ?s =>
    destruct (run_step_defined gf gt tc cw Hgf Htc s) as (st' & H1)
  end.
  { apply run_inv_start; assumption. }
  { exact HT. }
  eexists. exists st'. split; [exact H0|].
  rewrite state_after_R by lra. cbn [iter_step]. rewrite H1. reflexivity.
Qed.

Lemma heat_flux_sign_witness :
  exists st st' r self',
    state_after RArith (init RArith 2500 10 (5 / 100) 32) 0 = Some st /\
    state_after RArith (init RArith 2500 10 (5 / 100) 32) 1 = Some st' /\
    solve RArith (init RArith 2500 10 (5 / 100) 32) = Some (r, self') /\
    (exists Q_removed,
       flux_profile st' = flux_profile st ++ [Q_removed] /\
       total_heat_removed st' = total_heat_removed st + Q_removed /\
       Q_removed < 0) /\
    (exists q rest, res_flux r = q :: rest /\ q < 0 /\ res_heat r < 0).
Proof.
  assert (Hgf : 0 < 2500) by lra.
  assert (Htc : 0 < 5 / 100 < 1) by lra.
  destruct (first_pass_defined 2500 10 (5 / 100) 32) as (st & st' & H0 & H1);
    try lra.
  destruct (low_target_returns 2500 10 (5 / 100) 32) as (r & self' & H);
    try lra.
  destruct (heat_flux_sign 2500 10 (5 / 100) 32 Hgf Htc) as (Hstep & Hrun).
  exists st, st', r, self'. repeat split; auto.
  - destruct (Hstep 0%nat st st' H0 H1) as (Q & Hf & Ht & Hneg & _).
    exists Q. repeat split; auto. apply Hneg.
    rewrite state_after_R in H0 by lra. cbn [iter_step] in H0.
    injection H0 as <-. cbn [T_curr]. lra.
  - destruct (Hrun ltac:(lra) r self' H) as (q & rest & Hq & Hneg & Hheat).
    exists q, rest. repeat split; auto. apply Hheat.
    destruct (low_target_single_pass 2500 10 (5 / 100) 32 r self')
      as (_ & _ & _ & Lf); auto; try lra.
    rewrite Hq in Lf. destruct rest; [reflexivity | discriminate Lf].
Defined.

Lemma length_after_R k : length_after RArith k = INR k * (1 / 10).
Proof.
  induction k as [|k IH].
  - simpl. lra.
  - rewrite S_INR. cbn [length_after]. rewrite IH.
    unfold L_step. cbn [add lit RArith]. lra.
Qed.

End RealFacts.

(** ** Binary64: the theorems on concrete runs, and the axial positions *)

Module RunFacts.

Import FloatArith Runs.
Local Open Scope float_scope.

Lemma solve_stops_at_first_target_hit_witness :
  exists r self',
    solve F default_inputs = Some (r, self') /\
    length (res_conc r) = 2%nat /\
    (forall k stk, (1 <= k)%nat -> state_after F default_inputs k = Some stk ->
       geb F (C_curr stk) (target_conc default_inputs) = true ->
       (length (res_conc r) <= k)%nat).
Proof.
  eexists. eexists. split; [vm_compute; reflexivity|].
  split; [reflexivity|].
  assert (H := solve_stops_at_first_target_hit F default_inputs _ _
                 ltac:(vm_compute; reflexivity)).
  cbv zeta in H. destruct H as (_ & _ & H). exact H.
Defined.

Lemma solve_profiles_aligned_witness :
  exists r self',
    solve F unreached_inputs = Some (r, self') /\
    length (res_temp r) = length (res_z r) /\
    length (res_conc r) = length (res_z r) /\
    length (res_flux r) = length (res_z r) /\
    (1 <= length (res_z r) <= 60)%nat.
Proof.
  eexists. eexists. split; [vm_compute; reflexivity|].
  assert (H := solve_profiles_aligned F unreached_inputs _ _
                 ltac:(vm_compute; reflexivity)).
  cbv zeta in H. destruct H as (H1 & H2 & H3 & H4 & _). auto.
Defined.

Lemma solve_deterministic_witness :
  exists r self',
    solve F default_inputs = Some (r, self') /\
    option_map fst (solve F default_inputs) = option_map fst (solve F self').
Proof.
  eexists. eexists. split; [vm_compute; reflexivity|].
  apply (solve_deterministic F (of_Z F 2500) (of_Z F 10) (lit F 32 100)
           (of_Z F 32)).
  - apply built_init.
  - eapply built_solve; [apply built_init|]. vm_compute. reflexivity.
Defined.

Lemma solve_returns_without_error_witness :
  exists st60 r self',
    state_after F unreached_inputs 60 = Some st60 /\
    solve F unreached_inputs = Some (r, self') /\
    length (res_conc r) = 60%nat /\
    nth_error (res_conc r) 59
      = Some (mul F (C_curr st60) (of_Z F 100)) /\
    geb F (C_curr st60) (target_conc unreached_inputs) = false.
Proof.
  destruct (solve_returns_without_error F unreached_inputs) as (Hrun & _).
  eexists.
  assert (H60 : state_after F unreached_inputs 60 = Some _)
    by (vm_compute; reflexivity).
  destruct (Hrun _ H60) as (r & self' & Hs & _ & L & Hc & Hlt).
  { intros j stj Hj.
    destruct j as [|j]; [lia|].
    do 60 (destruct j as [|j];
           [intros Hs; vm_compute in Hs; injection Hs as <-; reflexivity|]).
    lia. }
  exists r, self'. split; [exact H60|]. auto.
Defined.

(** ** The axial positions *)

Lemma length_after_F lm k :
  (k < 60)%nat ->
  (fval (length_after (FArith lm) k)
     <? fval (length_after (FArith lm) (S k)))%float = true /\
  (abs (fval (length_after (FArith lm) (S k))
          - float_of_Z (Z.of_nat (S k)) * fval (L_step (FArith lm)))
     <=? 0x1p-47)%float = true.
Proof.
  intros H.
  do 60 (destruct k as [|k]; [split; vm_compute; reflexivity|]). lia.
Qed.

(** C6, amended.  Whenever [solve] returns, the [k]-th axial position is
    the sum obtained by adding the step length 0.1 to zero [k] times, and
    the returned length is the last of these sums.  In exact arithmetic
    that sum is [k * 0.1].  In binary64 the sums increase strictly over
    the 60 steps and stay within [2^-47] of the product [k * 0.1], without
    being equal to it in general. *)
Theorem axial_positions_are_running_sums :
  (forall (A : Arith) (self : AbsorberSimulation (num A)) r self',
     solve A self = Some (r, self') ->
     (forall k, (1 <= k <= length (res_z r))%nat ->
        nth_error (res_z r) (k - 1) = Some (length_after A k)) /\
     res_length r = length_after A (length (res_z r))) /\
  (forall k, length_after RealArith.RArith k = (INR k * (1 / 10))%R) /\
  (forall lm k, (k < 60)%nat ->
     (fval (length_after (FArith lm) k)
        <? fval (length_after (FArith lm) (S k)))%float = true /\
     (abs (fval (length_after (FArith lm) (S k))
             - float_of_Z (Z.of_nat (S k)) * fval (L_step (FArith lm)))
        <=? 0x1p-47)%float = true).
Proof.
  split; [|split].
  - intros A self r self' H.
    destruct (solve_run _ _ _ _ H)
      as (n & st & _ & Hst & _ & Hlen & _ & Lz & _).
    split.
    + intros k Hk.
      destruct (solve_entries _ _ _ _ H k Hk)
        as (_ & stk & _ & _ & Hstk & _ & _ & Hz & _).
      rewrite Hz. f_equal. apply (state_after_length _ _ _ _ Hstk).
    + rewrite Hlen, Lz. apply (state_after_length _ _ _ _ Hst).
  - apply RealFacts.length_after_R.
  - apply length_after_F.
Qed.

Lemma axial_positions_are_running_sums_witness :
  exists r self',
    solve F default_inputs = Some (r, self') /\
    nth_error (res_z r) 1 = Some (length_after F 2) /\
    res_length r = length_after F 2.
Proof.
  eexists. eexists. split; [vm_compute; reflexivity|].
  destruct axial_positions_are_running_sums as (H & _).
  destruct (H F default_inputs _ _ ltac:(vm_compute; reflexivity))
    as (Hz & Hl).
  split; [apply (Hz 2%nat); simpl; lia | exact Hl].
Defined.

(** Whatever math library is used, a tenth axial position is below 1.0,
    which is what [10 * 0.1] evaluates to, an eighth is not its
    predecessor plus a step that measures 0.1, and a returned length after
    60 steps is not [60 * 0.1].  With the default inputs and a target of
    0.38 the march does take all 60 steps. *)
Lemma axial_position_differs_from_multiple :
  (float_of_Z 10 * fval (L_step F) =? 1)%float = true /\
  (forall lm self r self' z10,
     solve (FArith lm) self = Some (r, self') ->
     nth_error (res_z r) 9 = Some z10 ->
     (fval z10 <? 1)%float = true) /\
  (forall lm self r self' z7 z8,
     solve (FArith lm) self = Some (r, self') ->
     nth_error (res_z r) 6 = Some z7 ->
     nth_error (res_z r) 7 = Some z8 ->
     (fval z8 - fval z7 =? fval (L_step F))%float = false) /\
  (forall lm self r self',
     solve (FArith lm) self = Some (r, self') ->
     length (res_z r) = 60%nat ->
     (fval (res_length r) =? float_of_Z 60 * fval (L_step F))%float
       = false) /\
  exists r self' z10,
    solve F unreached_inputs = Some (r, self') /\
    length (res_z r) = 60%nat /\
    nth_error (res_z r) 9 = Some z10 /\
    (fval z10 <? 1)%float = true /\
    (fval (res_length r) =? float_of_Z 60 * fval (L_step F))%float = false.
Proof.
  assert (Hentry : forall lm self r self' k z,
            solve (FArith lm) self = Some (r, self') ->
            nth_error (res_z r) k = Some z ->
            z = length_after (FArith lm) (S k)).
  { intros lm self r self' k z H Hz.
    assert (Hk : (k < length (res_z r))%nat)
      by (apply nth_error_Some; congruence).
    destruct (solve_entries _ _ _ _ H (S k))
      as (_ & stk & _ & _ & Hstk & _ & _ & Hz' & _); [lia|].
    replace (S k - 1)%nat with k in Hz' by lia.
    rewrite Hz in Hz'. injection Hz' as ->.
    apply (state_after_length _ _ _ _ Hstk). }
  split; [vm_compute; reflexivity|]. split; [|split; [|split]].
  - intros lm self r self' z10 H Hz.
    rewrite (Hentry _ _ _ _ _ _ H Hz). vm_compute. reflexivity.
  - intros lm self r self' z7 z8 H H7 H8.
    rewrite (Hentry _ _ _ _ _ _ H H7), (Hentry _ _ _ _ _ _ H H8).
    vm_compute. reflexivity.
  - intros lm self r self' H L.
    destruct (solve_run _ _ _ _ H)
      as (n & st & _ & Hst & _ & Hlen & _ & Lz & _).
    rewrite Hlen, (state_after_length _ _ _ _ Hst).
    assert (n = 60%nat) as -> by congruence.
    vm_compute. reflexivity.
  - do 3 eexists. split; [vm_compute; reflexivity|].
    split; [reflexivity|]. split; [reflexivity|].
    split; vm_compute; reflexivity.
Qed.

(** ** Sample runs in binary64 *)

(** The default inputs need 58 tubes and reach the target in two steps.
    The gas enters colder than the cooling water, so the first heat-flux
    entry is negative; the concentrations rise. *)
Example default_run :
  exists r self' q1 q2 c1 c2,
    solve F default_inputs = Some (r, self') /\
    res_N_tubes r = 58%Z /\ N_tubes self' = Some 58%Z /\
    res_flux r = [q1; q2] /\ res_conc r = [c1; c2] /\
    (fval q1 <? 0)%float = true /\
    (5 <? fval c1)%float = true /\ (fval c1 <? fval c2)%float = true /\
    (32 <=? fval c2)%float = true /\ (fval c2 <? 100)%float = true.
Proof.
  do 6 eexists. split; [vm_compute; reflexivity|].
  repeat split; vm_compute; reflexivity.
Qed.

(** A target that is not reached: [solve] returns all the same, with 60
    entries, the last concentration below the target. *)
Example unreached_run :
  exists r self' c,
    solve F unreached_inputs = Some (r, self') /\
    length (res_conc r) = 60%nat /\
    nth_error (res_conc r) 59 = Some c /\
    (fval c <? 38)%float = true.
Proof.
  eexists. eexists. eexists. split; [vm_compute; reflexivity|].
  split; [reflexivity|]. split; [reflexivity|]. vm_compute. reflexivity.
Qed.

(** A target equal to the seed concentration: one step. *)
Example seed_run :
  exists r self',
    solve F seed_inputs = Some (r, self') /\ length (res_z r) = 1%nat.
Proof.
  eexists. eexists. split; [vm_compute; reflexivity|]. reflexivity.
Qed.

End RunFacts.

(** * Further properties of the code *)

(** ** What [solve] returns beside the profiles, for every arithmetic *)

Section Aggregation.

Variable A : Arith.

Implicit Types (self : AbsorberSimulation (num A)) (st : MarchState (num A)).

Lemma py_max_cases (a b : num A) : py_max A a b = a \/ py_max A a b = b.
Proof. unfold py_max. destruct (gtb A b a); auto. Qed.

Lemma fold_py_max_In (xs : list (num A)) (x : num A) :
  In (fold_left (py_max A) xs x) (x :: xs).
Proof.
  revert x. induction xs as [|y ys IH]; intros x.
  - left. reflexivity.
  - cbn [fold_left]. destruct (IH (py_max A x y)) as [E|HIn].
    + destruct (py_max_cases x y) as [E'|E'].
      * left. congruence.
      * right. left. congruence.
    + right. right. exact HIn.
Qed.

Lemma py_max_list_In (l : list (num A)) (m : num A) :
  py_max_list A l = Some m -> In m l.
Proof.
  destruct l as [|x xs]; [discriminate|].
  intros [= <-]. apply fold_py_max_In.
Qed.

(** Python's [max] of a list keeps an entry that none of the entries
    exceeds, as soon as [>] is irreflexive and an entry that is not above
    the running maximum is not above a later, greater one. *)
Lemma fold_py_max_bound (xs : list (num A)) :
  (forall a, gtb A a a = false) ->
  (forall a c n, gtb A a c = false -> gtb A n c = true -> gtb A a n = false) ->
  forall cur seen,
    Forall (fun t => gtb A t cur = false) seen ->
    Forall (fun t => gtb A t (fold_left (py_max A) xs cur) = false)
           (seen ++ xs).
Proof.
  intros Hirr Htr. induction xs as [|y ys IH]; intros cur seen Hseen.
  - rewrite app_nil_r. exact Hseen.
  - cbn [fold_left].
    replace (seen ++ y :: ys) with ((seen ++ [y]) ++ ys)
      by (rewrite <- app_assoc; reflexivity).
    apply IH. unfold py_max. apply Forall_app.
    destruct (gtb A y cur) eqn:Hy.
    + split; [|constructor; [apply Hirr | constructor]].
      apply Forall_forall. intros t Ht.
      rewrite Forall_forall in Hseen. apply (Htr t cur y); auto.
    + split; [exact Hseen | constructor; [exact Hy | constructor]].
Qed.

Lemma py_max_list_bound (l : list (num A)) (m : num A) :
  (forall a, gtb A a a = false) ->
  (forall a c n, gtb A a c = false -> gtb A n c = true -> gtb A a n = false) ->
  py_max_list A l = Some m ->
  Forall (fun t => gtb A t m = false) l.
Proof.
  intros Hirr Htr. destruct l as [|x xs]; [constructor|].
  intros [= <-].
  apply (fold_py_max_bound xs Hirr Htr x [x]).
  constructor; [apply Hirr | constructor].
Qed.

(** The accumulated heat is the sum of the recorded fluxes, added in step
    order. *)
Lemma iter_step_heat self water n st0 stn :
  iter_step A self water n st0 = Some stn ->
  flux_profile st0 = [] ->
  total_heat_removed stn
  = fold_left (add A) (flux_profile stn) (total_heat_removed st0).
Proof.
  intros H Hf. revert stn H. induction n as [|n IH]; intros stn H.
  - simpl in H. injection H as <-. rewrite Hf. reflexivity.
  - rewrite iter_step_S_last in H. apply bind_Some in H.
    destruct H as (sn & Hn & Hs).
    destruct (march_step_appends _ _ _ _ _ Hs) as (_ & _ & _ & _ & Q & Ef & Eq).
    rewrite Ef, Eq, fold_left_app, <- (IH sn Hn). reflexivity.
Qed.

(** X14.  In every arithmetic, the total heat duty [solve] returns is the
    sum of the heat-flux entries, added to zero in step order, and the
    length it returns is the last axial position. *)
Theorem totals_match_profiles self r self' :
  solve A self = Some (r, self') ->
  res_heat r = fold_left (add A) (res_flux r) (of_Z A 0) /\
  nth_error (res_z r) (length (res_z r) - 1) = Some (res_length r).
Proof.
  intros H.
  destruct (solve_inv _ _ _ _ H)
    as (water & N & st0 & st & peak & Hw & HN & Es & H0 & Hm & Hp & Er).
  destruct (march_stops _ _ _ _ _ _ Hm) as (n & _ & _ & Hit & _).
  destruct (initial_state_empty _ _ _ _ H0)
    as (_ & _ & _ & Ef & _ & Et & _).
  destruct (solve_run _ _ _ _ H)
    as (m & stm & Hm1 & Hstm & _ & Hlen & _ & Lz & _).
  destruct (solve_entries _ _ _ _ H m)
    as (_ & stm' & _ & _ & Hstm' & _ & _ & Hz & _); [lia|].
  rewrite Hstm in Hstm'. injection Hstm' as <-.
  rewrite Lz, Hz, Hlen. subst r. cbn [res_heat res_flux].
  split; [|reflexivity].
  rewrite (iter_step_heat _ _ _ _ _ Hit Ef), Et. reflexivity.
Qed.

(** A run that returned has been through the prelude and a first pass. *)
Lemma solve_first_pass_any self self' r :
  solve A self = Some (r, self') ->
  exists water N st0 s1,
    water_rate A self = Some water /\
    tube_count A self = Some N /\
    initial_state A (set_N_tubes self N) water = Some st0 /\
    march_step A (set_N_tubes self N) water st0 = Some s1.
Proof.
  intros H.
  destruct (solve_inv _ _ _ _ H)
    as (water & N & st0 & st & peak & Hw & HN & -> & H0 & Hm & _).
  unfold steps in Hm. cbn [march] in Hm. apply bind_Some in Hm.
  destruct Hm as (s1 & Hs1 & _).
  exists water, N, st0, s1. auto.
Qed.

End Aggregation.


(** ** Further properties in exact real arithmetic *)

Module RealMore.

Import RealArith RealFacts.
Local Open Scope R_scope.

Implicit Types (self : AbsorberSimulation R) (st stj sk : MarchState R).

(** *** The equilibrium correlation as a function *)

Lemma equilibrium_pressure_R_value (temp conc P : R) :
  get_equilibrium_pressure RArith temp conc = Some P ->
  (conc < 1 / 100 /\ P = 0) \/
  (1 / 100 <= conc /\ temp + 273 <> 0 /\
   P = exp (105 / 10 - 2500 / (temp + 273) + 2 * ln conc) * (133322 / 1000)).
Proof.
  unfold get_equilibrium_pressure.
  cbn [num of_Z lit add sub mul div np_log np_exp ltb RArith].
  destruct (R_ltb conc (1 / 100)) eqn:Hlt.
  - intros [= <-]. left. split; [apply R_ltb_true, Hlt | reflexivity].
  - apply R_ltb_false in Hlt. intros H.
    apply bind_Some in H. destruct H as (q & Hq & H).
    apply R_div_Some in Hq. destruct Hq as (HT & ->).
    rewrite R_log_pos in H by lra. cbn [bind] in H. injection H as <-.
    right. auto.
Qed.

(** X13.  In exact arithmetic the equilibrium pressure is never
    negative; above -273 C it does not decrease when the temperature
    rises; at a given temperature it does not decrease when the
    concentration rises, the jump from 0 at the dilute-limit guard
    included; and above -273 C, for a mass fraction of at most 1, it stays
    below [exp 10.5 * 133.322]. *)
Theorem equilibrium_pressure_monotone :
  (forall temp conc P,
     get_equilibrium_pressure RArith temp conc = Some P -> 0 <= P) /\
  (forall t1 t2 conc P1 P2,
     -273 < t1 <= t2 ->
     get_equilibrium_pressure RArith t1 conc = Some P1 ->
     get_equilibrium_pressure RArith t2 conc = Some P2 ->
     P1 <= P2) /\
  (forall temp c1 c2 P1 P2,
     c1 <= c2 ->
     get_equilibrium_pressure RArith temp c1 = Some P1 ->
     get_equilibrium_pressure RArith temp c2 = Some P2 ->
     P1 <= P2) /\
  (forall temp conc P,
     -273 < temp -> conc <= 1 ->
     get_equilibrium_pressure RArith temp conc = Some P ->
     P < exp (105 / 10) * (133322 / 1000)).
Proof.
  assert (Hexp_le : forall x y, x <= y -> exp x <= exp y).
  { intros x y [H| ->]; [left; apply exp_increasing, H | right; reflexivity]. }
  assert (Hln_le : forall x y, 0 < x -> x <= y -> ln x <= ln y).
  { intros x y Hx [H| ->]; [left; apply ln_increasing; assumption
                           | right; reflexivity]. }
  repeat split.
  - intros temp conc P H.
    destruct (equilibrium_pressure_R_value _ _ _ H) as [(_ & ->)|(_ & _ & ->)];
      [lra|].
    apply Rmult_le_pos; [left; apply exp_pos | lra].
  - intros t1 t2 conc P1 P2 Ht H1 H2.
    destruct (equilibrium_pressure_R_value _ _ _ H1)
      as [(Hc1 & ->)|(Hc1 & _ & ->)];
      destruct (equilibrium_pressure_R_value _ _ _ H2)
        as [(Hc2 & ->)|(Hc2 & _ & ->)]; try lra.
    apply Rmult_le_compat_r; [lra|]. apply Hexp_le.
    assert (2500 / (t2 + 273) <= 2500 / (t1 + 273)); [|lra].
    unfold Rdiv. apply Rmult_le_compat_l; [lra|].
    apply Rinv_le_contravar; lra.
  - intros temp c1 c2 P1 P2 Hc H1 H2.
    destruct (equilibrium_pressure_R_value _ _ _ H1)
      as [(Hc1 & ->)|(Hc1 & _ & ->)];
      destruct (equilibrium_pressure_R_value _ _ _ H2)
        as [(Hc2 & ->)|(Hc2 & _ & ->)]; try lra.
    + apply Rmult_le_pos; [left; apply exp_pos | lra].
    + apply Rmult_le_compat_r; [lra|]. apply Hexp_le.
      assert (ln c1 <= ln c2) by (apply Hln_le; lra). lra.
  - intros temp conc P Ht Hc H.
    destruct (equilibrium_pressure_R_value _ _ _ H)
      as [(_ & ->)|(Hc1 & _ & ->)].
    + apply Rmult_lt_0_compat; [apply exp_pos | lra].
    + apply Rmult_lt_compat_r; [lra|]. apply exp_increasing.
      assert (0 < 2500 / (temp + 273)) by (apply Rdiv_lt_0_compat; lra).
      assert (ln conc <= 0).
      { rewrite <- ln_1. apply Hln_le; lra. }
      lra.
Qed.

Lemma equilibrium_pressure_monotone_witness :
  exists P1 P2,
    get_equilibrium_pressure RArith 10 (5 / 100) = Some P1 /\
    get_equilibrium_pressure RArith 20 (5 / 100) = Some P2 /\
    0 <= P1 /\ P1 <= P2 /\ P2 < exp (105 / 10) * (133322 / 1000).
Proof.
  destruct (equilibrium_pressure_R_defined 10 (5 / 100)) as (P1 & H1);
    [right; lra|].
  destruct (equilibrium_pressure_R_defined 20 (5 / 100)) as (P2 & H2);
    [right; lra|].
  destruct equilibrium_pressure_monotone as (Hpos & Htemp & _ & Hmax).
  exists P1, P2. split; [exact H1|]. split; [exact H2|]. split; [|split].
  - exact (Hpos _ _ _ H1).
  - apply (Htemp 10 20 (5 / 100) P1 P2); auto; lra.
  - apply (Hmax 20 (5 / 100) P2); auto; lra.
Defined.

Lemma equilibrium_pressure_R_nonneg (temp conc P : R) :
  get_equilibrium_pressure RArith temp conc = Some P -> 0 <= P.
Proof.
  intros H.
  destruct (equilibrium_pressure_R_value _ _ _ H) as [(_ & ->)|(_ & _ & ->)];
    [lra|].
  apply Rmult_le_pos; [left; apply exp_pos | lra].
Qed.

(** *** One pass, with the quantities it computes *)

Lemma march_step_R_full self water st N :
  N_tubes self = Some N -> (1 <= N)%Z -> 0 < Di self -> 0 < gas_flow self ->
  0 < water -> 0 < current_hcl_mass st ->
  C_curr st < 1 / 100 \/ T_curr st + 273 <> 0 ->
  let area := PI * Di self * (1 / 10) * IZR N in
  exists st' mass kappa,
    march_step RArith self water st = Some st' /\
    0 < area /\
    0 <= mass <= 25 / 100000 * 101325 * (365 / 10) / 1000 * area /\
    30000 / 76 * area <= kappa < 1875 * area /\
    T_curr st' =
      T_curr st + (mass * 1800 - kappa * (T_curr st - cw_temp self))
                  / ((water + current_hcl_mass st) / 3600 * (418 / 100)) /\
    current_hcl_mass st' = current_hcl_mass st + mass * 3600 /\
    flux_profile st' =
      flux_profile st ++ [kappa * (T_curr st - cw_temp self)].
Proof.
  intros HN HN1 HDi Hgf Hw Hh HT area.
  unfold march_step.
  cbn [num of_Z lit pi add sub mul div pow np_log np_exp ceil_int ltb gtb geb
       RArith] in *.
  rewrite HN. cbn [bind]. unfold L_step. cbn [lit RArith].
  set (h := current_hcl_mass st) in *.
  assert (HNR : 1 <= IZR N) by (apply IZR_pos_of_ge_1; exact HN1).
  assert (Hpi := PI_RGT_0).
  assert (Hper : 0 < PI * Di self * IZR N).
  { apply Rmult_lt_0_compat; [apply Rmult_lt_0_compat|]; lra. }
  assert (Harea : 0 < area).
  { unfold area. apply Rmult_lt_0_compat; [apply Rmult_lt_0_compat;
      [apply Rmult_lt_0_compat|]|]; lra. }
  fold area.
  rewrite (R_div_ok (water + h) 3600) by lra. cbn [bind].
  assert (Hm : 0 < (water + h) / 3600) by (apply Rdiv_lt_0_compat; lra).
  rewrite (R_div_ok _ (PI * Di self * IZR N)) by lra. cbn [bind].
  set (gamma := (water + h) / 3600 / (PI * Di self * IZR N)).
  assert (Hgamma : 0 < gamma) by (apply Rdiv_lt_0_compat; lra).
  rewrite (R_div_ok (4 * gamma)) by lra. cbn [bind].
  assert (HRe : 0 < 4 * gamma / (8 / 10000)) by (apply Rdiv_lt_0_compat; lra).
  rewrite (R_div_ok (-1) 3) by lra. cbn [bind].
  rewrite R_pow_pos by exact HRe. cbn [bind].
  set (p := Rpower (4 * gamma / (8 / 10000)) (-1 / 3)).
  rewrite (R_div_ok (gas_flow self) 3600) by lra. cbn [bind].
  assert (Hg : 0 < gas_flow self / 3600) by (apply Rdiv_lt_0_compat; lra).
  rewrite (R_div_ok h) by lra. cbn [bind].
  destruct (equilibrium_pressure_R_defined _ _ HT) as (P & HP).
  rewrite HP. cbn [bind].
  assert (HP0 := equilibrium_pressure_R_nonneg _ _ _ HP).
  rewrite !py_max_R.
  set (f := h / (h + gas_flow self / 3600)).
  assert (Hf : 0 < f < 1) by (apply frac_bounds; lra).
  set (df := Rmax 0 (f * 101325 - P)).
  assert (Hdf : 0 <= df <= 101325).
  { split; [apply Rmax_l|]. apply Rmax_lub; nra. }
  rewrite (R_div_ok _ 1000) by lra. cbn [bind].
  set (mass := 25 / 100000 * df * area * (365 / 10) / 1000).
  assert (Hmass : 0 <= mass <= 25 / 100000 * 101325 * (365 / 10) / 1000 * area).
  { unfold mass. split.
    - apply Rmult_le_pos; [|lra].
      apply Rmult_le_pos; [|lra]. apply Rmult_le_pos; [|lra].
      apply Rmult_le_pos; lra.
    - assert (df * area <= 101325 * area)
        by (apply Rmult_le_compat_r; lra).
      lra. }
  set (hf := Rmax 500 (1200 * p)).
  assert (Hhf : 500 <= hf) by apply Rmax_l.
  rewrite (R_div_ok 1 hf) by lra. cbn [bind].
  rewrite (R_div_ok 1 2000) by lra. cbn [bind].
  rewrite (R_div_ok (5 / 1000) 150) by lra. cbn [bind].
  assert (Hr1 : 0 < 1 / hf <= 1 / 500).
  { split; [apply Rdiv_lt_0_compat; lra|].
    unfold Rdiv. rewrite !Rmult_1_l. apply Rinv_le_contravar; lra. }
  set (rs := 1 / hf + 1 / 2000 + 5 / 1000 / 150).
  assert (Hrs : 16 / 30000 < rs <= 76 / 30000) by (unfold rs; lra).
  rewrite (R_div_ok (10 / 10) rs) by lra. cbn [bind].
  rewrite (R_div_ok _ 1000) by lra. cbn [bind].
  rewrite (R_div_ok _ ((water + h) / 3600 * (418 / 100))) by nra. cbn [bind].
  rewrite (R_div_ok (h + mass * 3600)) by nra. cbn [bind].
  set (kappa := 10 / 10 / rs * 1000 * area / 1000).
  assert (Ek : kappa = area * / rs) by (unfold kappa; field; lra).
  assert (Hinv : 30000 / 76 <= / rs < 30000 / 16).
  { split.
    - replace (30000 / 76) with (/ (76 / 30000)) by (field; lra).
      apply Rinv_le_contravar; lra.
    - replace (30000 / 16) with (/ (16 / 30000)) by (field; lra).
      apply Rinv_lt_contravar; [|lra].
      apply Rmult_lt_0_compat; lra. }
  assert (Hkappa : 30000 / 76 * area <= kappa < 1875 * area).
  { rewrite Ek. split; nra. }
  assert (HQ : 10 / 10 / rs * 1000 * area * (T_curr st - cw_temp self) / 1000
               = kappa * (T_curr st - cw_temp self)).
  { unfold kappa. field. lra. }
  rewrite HQ.
  eexists. exists mass, kappa. split; [reflexivity|]. cbn.
  repeat split; auto; lra.
Qed.

(** *** A run on inputs with [gas_flow > 0] and [0 < target_conc < 1] *)

Lemma pass_quantities gf gt tc cw k st st' :
  0 < gf -> 0 < tc < 1 ->
  state_after RArith (init RArith gf gt tc cw) k = Some st ->
  state_after RArith (init RArith gf gt tc cw) (S k) = Some st' ->
  let area := PI * (20 / 1000) * (1 / 10) * IZR (Zceil (tube_quotient gf)) in
  exists mass kappa D,
    0 < area /\ 0 < D /\
    0 <= mass <= 25 / 100000 * 101325 * (365 / 10) / 1000 * area /\
    30000 / 76 * area <= kappa < 1875 * area /\
    T_curr st' = T_curr st + (mass * 1800 - kappa * (T_curr st - cw)) / D /\
    flux_profile st' = flux_profile st ++ [kappa * (T_curr st - cw)].
Proof.
  intros Hgf Htc Hk HSk area.
  rewrite state_after_R in Hk, HSk by lra.
  rewrite iter_step_S_last, Hk in HSk. cbn [bind] in HSk.
  destruct (run_inv_after gf gt tc cw Hgf Htc k st Hk) as (Hh & _).
  assert (Hw := water0_pos gf tc Hgf Htc).
  assert (H0 := hcl0_pos gf tc Hgf Htc).
  destruct (march_step_R_full
              (set_N_tubes (init RArith gf gt tc cw) (Zceil (tube_quotient gf)))
              (gf * (6728 / 10000) / tc * (1 - tc)) st
              (Zceil (tube_quotient gf)))
    as (st'' & mass & kappa & E & Ha & Hm & Hkap & HT & _ & Hf).
  - reflexivity.
  - apply N0_pos, Hgf.
  - cbn. lra.
  - exact Hgf.
  - exact Hw.
  - cbv zeta in Hh. lra.
  - apply (march_step_R_Some _ _ _ _ HSk).
  - rewrite HSk in E. injection E as <-.
    cbn [Di cw_temp set_N_tubes init lit RArith] in Ha, Hm, Hkap, HT, Hf.
    exists mass, kappa,
      ((gf * (6728 / 10000) / tc * (1 - tc) + current_hcl_mass st)
       / 3600 * (418 / 100)).
    cbv zeta in Hh. subst area.
    assert (0 < (gf * (6728 / 10000) / tc * (1 - tc) + current_hcl_mass st)
                / 3600 * (418 / 100))
      by (apply Rmult_lt_0_compat; [apply Rdiv_lt_0_compat|]; lra).
    repeat split; auto; lra.
Qed.

Lemma fold_py_max_R_bound (xs : list R) (x : R) :
  x <= fold_left (py_max RArith) xs x /\
  Forall (fun t => t <= fold_left (py_max RArith) xs x) xs.
Proof.
  revert x. induction xs as [|y ys IH]; intros x.
  - split; [apply Rle_refl | constructor].
  - cbn [fold_left]. destruct (IH (py_max RArith x y)) as (H1 & H2).
    rewrite py_max_R in *.
    split; [|constructor; [|exact H2]].
    + apply Rle_trans with (Rmax x y); [apply Rmax_l | exact H1].
    + apply Rle_trans with (Rmax x y); [apply Rmax_r | exact H1].
Qed.

Lemma tube_quotient_linear a b :
  tube_quotient a - tube_quotient b = tube_quotient (a - b).
Proof.
  assert (Hpi := PI_RGT_0). unfold tube_quotient. field. lra.
Qed.

Lemma tube_quotient_0 : tube_quotient 0 = 0.
Proof.
  assert (Hpi := PI_RGT_0). unfold tube_quotient. field. lra.
Qed.

Lemma R_pow_neg_third (x p : R) : R_pow x (-1 / 3) = Some p -> 0 < x.
Proof.
  unfold R_pow. destruct (Rlt_dec 0 x) as [Hx|Hx]; [auto|].
  destruct (Req_EM_T (-1 / 3) (IZR (Zfloor (-1 / 3)))) as [E|_].
  - exfalso. assert (E3 : IZR (3 * Zfloor (-1 / 3)) = IZR (-1)).
    { rewrite mult_IZR, <- E. lra. }
    apply eq_IZR in E3. lia.
  - destruct (Req_EM_T x 0); [|discriminate].
    destruct (Rlt_dec (-1 / 3) 0); [discriminate | lra].
Qed.

(** The first pass of a run that returned. *)
Lemma solve_first_pass gf gt tc cw r self' :
  solve RArith (init RArith gf gt tc cw) = Some (r, self') ->
  tc <> 0 /\
  exists s1,
    march_step RArith
      (set_N_tubes (init RArith gf gt tc cw) (Zceil (tube_quotient gf)))
      (gf * (6728 / 10000) / tc * (1 - tc))
      {| T_curr := gt; C_curr := 5 / 100;
         current_hcl_mass :=
           gf * (6728 / 10000) / tc * (1 - tc) * (5 / 100) / (95 / 100);
         accumulated_length := 0; total_heat_removed := 0;
         z_axis := []; temp_liquid := []; conc_liquid := [];
         flux_profile := [] |} = Some s1.
Proof.
  intros H.
  destruct (solve_inv _ _ _ _ H)
    as (water & N & st0 & st & peak & Hw & HN & -> & H0 & Hm & _).
  assert (Htc : tc <> 0).
  { unfold water_rate in Hw. apply bind_Some in Hw.
    destruct Hw as (q & Hq & _). cbn in Hq.
    apply R_div_Some in Hq. tauto. }
  rewrite water_rate_R in Hw by exact Htc. injection Hw as <-.
  rewrite tube_count_R in HN. injection HN as <-.
  rewrite initial_state_R in H0. injection H0 as <-.
  unfold steps in Hm. cbn [march] in Hm. apply bind_Some in Hm.
  destruct Hm as (s1 & Hs1 & _). cbn [gas_temp init set_N_tubes] in Hs1.
  split; [exact Htc | exists s1; exact Hs1].
Qed.

(** *** Properties of the run *)

(** X1.  In exact arithmetic the tube count never decreases when
    [gas_flow] increases, whatever the other inputs. *)
Theorem tube_count_monotone gf1 gf2 gt1 tc1 cw1 gt2 tc2 cw2 :
  gf1 <= gf2 ->
  exists n1 n2,
    tube_count RArith (init RArith gf1 gt1 tc1 cw1) = Some n1 /\
    tube_count RArith (init RArith gf2 gt2 tc2 cw2) = Some n2 /\
    (n1 <= n2)%Z.
Proof.
  intros Hle.
  exists (Zceil (tube_quotient gf1)), (Zceil (tube_quotient gf2)).
  split; [apply tube_count_R|]. split; [apply tube_count_R|].
  assert (Hq : tube_quotient gf1 <= tube_quotient gf2).
  { assert (E := tube_quotient_linear gf2 gf1).
    destruct Hle as [Hlt| ->]; [|lra].
    assert (0 < tube_quotient (gf2 - gf1))
      by (apply tube_quotient_pos; lra).
    lra. }
  destruct (Zceil_bound (tube_quotient gf1)) as (H1 & _).
  destruct (Zceil_bound (tube_quotient gf2)) as (_ & H2).
  assert (H : IZR (Zceil (tube_quotient gf1) - 1)
              < IZR (Zceil (tube_quotient gf2))).
  { rewrite minus_IZR. lra. }
  apply lt_IZR in H. lia.
Qed.

Lemma tube_count_monotone_witness :
  exists n1 n2,
    tube_count RArith (init RArith 2500 10 (32 / 100) 32) = Some n1 /\
    tube_count RArith (init RArith 5000 10 (32 / 100) 32) = Some n2 /\
    (n1 <= n2)%Z.
Proof.
  apply (tube_count_monotone 2500 5000 10 (32 / 100) 32 10 (32 / 100) 32).
  lra.
Defined.

(** X4.  In exact arithmetic, with [gas_flow > 0], [solve] returns only
    for a target strictly between 0 and 1: a target of 0 divides by zero
    on line 24, and for any other target outside the interval the film
    Reynolds number of line 44 is not positive, so line 45 raises. *)
Theorem solve_needs_target_in_unit_interval gf gt tc cw r self' :
  0 < gf ->
  solve RArith (init RArith gf gt tc cw) = Some (r, self') ->
  0 < tc < 1.
Proof.
  intros Hgf H.
  destruct (solve_first_pass _ _ _ _ _ _ H) as (Htc & s1 & Hs1).
  assert (HN := N0_pos gf Hgf). apply IZR_pos_of_ge_1 in HN.
  assert (Hpi := PI_RGT_0).
  unfold march_step in Hs1.
  cbn [N_tubes set_N_tubes init Di current_hcl_mass bind
       num of_Z lit pi add sub mul div pow RArith] in Hs1.
  set (water := gf * (6728 / 10000) / tc * (1 - tc)) in *.
  apply bind_Some in Hs1. destruct Hs1 as (m & Em & Hs1).
  apply bind_Some in Hs1. destruct Hs1 as (gamma & Eg & Hs1).
  apply bind_Some in Hs1. destruct Hs1 as (Re_L & ERe & Hs1).
  apply bind_Some in Hs1. destruct Hs1 as (e & Ee & Hs1).
  apply bind_Some in Hs1. destruct Hs1 as (p & Ep & _).
  apply R_div_Some in Em. destruct Em as (_ & ->).
  apply R_div_Some in Eg. destruct Eg as (_ & ->).
  apply R_div_Some in ERe. destruct ERe as (_ & ->).
  apply R_div_Some in Ee. destruct Ee as (_ & ->).
  apply R_pow_neg_third in Ep.
  assert (Hper : 0 < PI * (20 / 1000) * IZR (Zceil (tube_quotient gf))).
  { apply Rmult_lt_0_compat; [apply Rmult_lt_0_compat|]; lra. }
  set (per := PI * (20 / 1000) * IZR (Zceil (tube_quotient gf))) in *.
  set (m := (water + water * (5 / 100) / (95 / 100)) / 3600) in *.
  assert (Hm : 0 < m).
  { destruct (Rlt_dec 0 m) as [Hm|Hm]; [exact Hm|exfalso].
    assert (m / per <= 0).
    { assert (0 < / per) by (apply Rinv_0_lt_compat, Hper).
      unfold Rdiv. nra. }
    lra. }
  assert (Hw : 0 < water) by (unfold m in Hm; lra).
  unfold water in Hw.
  assert (Hq : 0 < (1 - tc) / tc).
  { replace ((1 - tc) / tc)
      with (gf * (6728 / 10000) / tc * (1 - tc) / (gf * (6728 / 10000)))
      by (field; lra).
    apply Rdiv_lt_0_compat; lra. }
  destruct (Rlt_dec 0 tc) as [Hpos|Hneg].
  - split; [exact Hpos|].
    assert (0 < (1 - tc) / tc * tc) by (apply Rmult_lt_0_compat; lra).
    replace ((1 - tc) / tc * tc) with (1 - tc) in * by (field; lra). lra.
  - exfalso. assert (Hn : 0 < - tc) by lra.
    assert (0 < (1 - tc) / tc * - tc) by (apply Rmult_lt_0_compat; lra).
    replace ((1 - tc) / tc * - tc) with (tc - 1) in * by (field; lra). lra.
Qed.

Lemma solve_needs_target_in_unit_interval_witness :
  exists r self',
    solve RArith (init RArith 2500 10 (5 / 100) 32) = Some (r, self') /\
    0 < 5 / 100 < 1.
Proof.
  destruct (low_target_returns 2500 10 (5 / 100) 32) as (r & self' & H);
    try lra.
  exists r, self'. split; [exact H|].
  apply (solve_needs_target_in_unit_interval 2500 10 (5 / 100) 32 r self');
    [lra | exact H].
Defined.

(** X5.  In exact arithmetic, a gas flow for which the tube count comes
    out as zero makes [solve] raise: line 43 divides by the wetted
    perimeter of zero tubes.  That is so for [gas_flow = 0]. *)
Theorem solve_raises_without_tubes gf gt tc cw :
  -1 < tube_quotient gf <= 0 ->
  tube_count RArith (init RArith gf gt tc cw) = Some 0%Z /\
  solve RArith (init RArith gf gt tc cw) = None.
Proof.
  intros Hq.
  assert (HN : Zceil (tube_quotient gf) = 0%Z).
  { destruct (Zceil_bound (tube_quotient gf)) as (H1 & H2).
    assert (Ha : IZR (Zceil (tube_quotient gf)) < IZR 1) by lra.
    assert (Hb : IZR (-1) < IZR (Zceil (tube_quotient gf))) by lra.
    apply lt_IZR in Ha, Hb. lia. }
  split; [rewrite tube_count_R, HN; reflexivity|].
  destruct (solve RArith (init RArith gf gt tc cw)) as [[r self']|] eqn:H;
    [exfalso|reflexivity].
  destruct (solve_first_pass _ _ _ _ _ _ H) as (_ & s1 & Hs1).
  rewrite HN in Hs1. unfold march_step in Hs1.
  cbn [N_tubes set_N_tubes init Di current_hcl_mass bind
       num of_Z lit pi add sub mul div pow RArith] in Hs1.
  apply bind_Some in Hs1. destruct Hs1 as (m & _ & Hs1).
  apply bind_Some in Hs1. destruct Hs1 as (gamma & Eg & _).
  apply R_div_Some in Eg. destruct Eg as (Hne & _).
  apply Hne. ring.
Qed.

Lemma solve_raises_without_tubes_witness :
  tube_count RArith (init RArith 0 10 (32 / 100) 32) = Some 0%Z /\
  solve RArith (init RArith 0 10 (32 / 100) 32) = None.
Proof.
  apply (solve_raises_without_tubes 0 10 (32 / 100) 32).
  rewrite tube_quotient_0. lra.
Defined.

(** X6.  In exact arithmetic, for [gas_flow > 0] and
    [0 < target_conc < 1], the heat a pass removes is proportional to the
    difference between the liquid temperature at its start and [cw_temp],
    with a factor between [30000/76] and [1875] times the transfer area
    [pi * 0.020 * 0.1 * N_tubes]: the film coefficient is floored at 500,
    and the wall and the cooling-water side cap the overall
    coefficient. *)
Theorem heat_flux_magnitude gf gt tc cw k st st' :
  0 < gf -> 0 < tc < 1 ->
  state_after RArith (init RArith gf gt tc cw) k = Some st ->
  state_after RArith (init RArith gf gt tc cw) (S k) = Some st' ->
  let area := PI * (20 / 1000) * (1 / 10) * IZR (Zceil (tube_quotient gf)) in
  exists Q_removed,
    flux_profile st' = flux_profile st ++ [Q_removed] /\
    30000 / 76 * area * Rabs (T_curr st - cw) <= Rabs Q_removed /\
    Rabs Q_removed <= 1875 * area * Rabs (T_curr st - cw).
Proof.
  intros Hgf Htc Hk HSk area.
  destruct (pass_quantities gf gt tc cw k st st' Hgf Htc Hk HSk)
    as (mass & kappa & D & Ha & _ & _ & Hkap & _ & Hf).
  fold area in Ha, Hkap.
  exists (kappa * (T_curr st - cw)). split; [exact Hf|].
  rewrite Rabs_mult, (Rabs_right kappa) by nra.
  assert (H0 := Rabs_pos (T_curr st - cw)).
  split; apply Rmult_le_compat_r; lra.
Qed.

Lemma heat_flux_magnitude_witness :
  exists st st' Q_removed,
    state_after RArith (init RArith 2500 10 (32 / 100) 32) 0 = Some st /\
    state_after RArith (init RArith 2500 10 (32 / 100) 32) 1 = Some st' /\
    flux_profile st' = flux_profile st ++ [Q_removed] /\
    Rabs Q_removed
    <= 1875 * (PI * (20 / 1000) * (1 / 10)
               * IZR (Zceil (tube_quotient 2500)))
       * Rabs (T_curr st - 32).
Proof.
  assert (Hgf : 0 < 2500) by lra.
  assert (Htc : 0 < 32 / 100 < 1) by lra.
  destruct (first_pass_defined 2500 10 (32 / 100) 32 Hgf Htc)
    as (st & st' & H0 & H1); [lra|].
  destruct (heat_flux_magnitude 2500 10 (32 / 100) 32 0 st st' Hgf Htc H0 H1)
    as (Q & Hf & _ & Hup).
  exists st, st', Q. auto.
Defined.

(** X7.  In exact arithmetic, for [gas_flow > 0] and
    [0 < target_conc < 1]: a pass that starts with the liquid at or below
    [cw_temp] does not lower its temperature, and a pass that starts
    5 K or more above [cw_temp] lowers it, the heat of absorption of one
    pass being less than what that difference removes. *)
Theorem temperature_direction gf gt tc cw k st st' :
  0 < gf -> 0 < tc < 1 ->
  state_after RArith (init RArith gf gt tc cw) k = Some st ->
  state_after RArith (init RArith gf gt tc cw) (S k) = Some st' ->
  (T_curr st <= cw -> T_curr st <= T_curr st') /\
  (cw + 5 <= T_curr st -> T_curr st' < T_curr st).
Proof.
  intros Hgf Htc Hk HSk.
  destruct (pass_quantities gf gt tc cw k st st' Hgf Htc Hk HSk)
    as (mass & kappa & D & Ha & HD & Hm & Hkap & HT & _).
  set (area := PI * (20 / 1000) * (1 / 10) * IZR (Zceil (tube_quotient gf)))
    in *.
  assert (HiD : 0 < / D) by (apply Rinv_0_lt_compat, HD).
  rewrite HT. unfold Rdiv. split; intros H.
  - assert (0 <= (mass * 1800 - kappa * (T_curr st - cw)) * / D);
      [|lra].
    apply Rmult_le_pos; [nra | lra].
  - assert ((mass * 1800 - kappa * (T_curr st - cw)) * / D < 0); [|lra].
    assert (mass * 1800 - kappa * (T_curr st - cw) < 0); [|nra].
    assert (30000 / 76 * area * 5 <= kappa * (T_curr st - cw)); [|lra].
    apply Rle_trans with (kappa * 5); [nra|].
    apply Rmult_le_compat_l; lra.
Qed.

Lemma temperature_direction_witness :
  exists st st',
    state_after RArith (init RArith 2500 10 (32 / 100) 32) 0 = Some st /\
    state_after RArith (init RArith 2500 10 (32 / 100) 32) 1 = Some st' /\
    T_curr st <= T_curr st'.
Proof.
  assert (Hgf : 0 < 2500) by lra.
  assert (Htc : 0 < 32 / 100 < 1) by lra.
  destruct (first_pass_defined 2500 10 (32 / 100) 32 Hgf Htc)
    as (st & st' & H0 & H1); [lra|].
  exists st, st'. split; [exact H0|]. split; [exact H1|].
  apply (temperature_direction 2500 10 (32 / 100) 32 0 st st' Hgf Htc H0 H1).
  rewrite state_after_R in H0 by lra. cbn [iter_step] in H0.
  injection H0 as <-. cbn [T_curr]. lra.
Defined.

(** X9.  The peak temperature is taken over the temperatures recorded
    after each pass, not over the inlet temperature: in exact arithmetic,
    with [gas_flow > 0], a target at or below the seed concentration and
    the gas entering 5 K or more above the cooling water, the single
    recorded temperature, which is the returned peak, is below
    [gas_temp]. *)
Theorem peak_below_inlet gf gt tc cw r self' :
  0 < gf -> 0 < tc <= 5 / 100 -> cw + 5 <= gt ->
  solve RArith (init RArith gf gt tc cw) = Some (r, self') ->
  res_temp r = [res_max_temp r] /\ res_max_temp r < gt.
Proof.
  intros Hgf Htc Hhot H.
  assert (Htc' : 0 < tc < 1) by lra.
  destruct (low_target_single_pass gf gt tc cw r self' Hgf Htc H)
    as (Lz & Lt & _).
  destruct (solve_entries _ _ _ _ H 1)
    as (s0 & s1 & _ & Hs0 & Hs1 & _ & _ & _ & HT & _); [lia|].
  cbn [Nat.sub] in Hs0, HT.
  destruct (solve_inv _ _ _ _ H)
    as (water & N & st0 & st & peak & _ & _ & _ & _ & _ & Hp & Er).
  assert (Hin : In (res_max_temp r) (res_temp r)).
  { rewrite Er. cbn [res_max_temp res_temp]. apply py_max_list_In, Hp. }
  change (num RArith) with R in *.
  destruct (res_temp r) as [|t [|t' ts]]; try discriminate Lt.
  cbn [nth_error] in HT. injection HT as ->.
  destruct Hin as [E|[]]. rewrite <- E. split; [reflexivity|].
  destruct (pass_quantities gf gt tc cw 0 s0 s1 Hgf Htc' Hs0 Hs1)
    as (mass & kappa & D & Ha & HD & Hm & Hkap & HT & _).
  rewrite state_after_R in Hs0 by lra. cbn [iter_step] in Hs0.
  injection Hs0 as <-. cbn [T_curr] in HT.
  set (area := PI * (20 / 1000) * (1 / 10) * IZR (Zceil (tube_quotient gf)))
    in *.
  assert (HiD : 0 < / D) by (apply Rinv_0_lt_compat, HD).
  rewrite HT. unfold Rdiv.
  assert ((mass * 1800 - kappa * (gt - cw)) * / D < 0); [|lra].
  assert (mass * 1800 - kappa * (gt - cw) < 0); [|nra].
  assert (30000 / 76 * area * 5 <= kappa * (gt - cw)); [|lra].
  apply Rle_trans with (kappa * 5); [nra|].
  apply Rmult_le_compat_l; lra.
Qed.

Lemma peak_below_inlet_witness :
  exists r self',
    solve RArith (init RArith 2500 100 (5 / 100) 32) = Some (r, self') /\
    res_temp r = [res_max_temp r] /\ res_max_temp r < 100.
Proof.
  destruct (low_target_returns 2500 100 (5 / 100) 32) as (r & self' & H);
    try lra.
  exists r, self'. split; [exact H|].
  apply (peak_below_inlet 2500 100 (5 / 100) 32 r self'); try lra.
  exact H.
Defined.

End RealMore.

(** ** Edge behaviour in binary64 *)

Module FloatMore.

Import FloatArith.
Local Open Scope float_scope.

(** *** The order of binary64 *)

Lemma cmp_cont_lt (p q : positive) :
  Pos.compare_cont Eq p q = Lt <-> (p < q)%positive.
Proof. reflexivity. Qed.

Lemma cmp_cont_gt (p q : positive) :
  Pos.compare_cont Eq p q = Gt <-> (q < p)%positive.
Proof.
  change (Pos.compare_cont Eq p q) with (Pos.compare p q).
  apply Pos.compare_gt_iff.
Qed.

Lemma lex_lt_trans (e1 e2 e3 : Z) (m1 m2 m3 : positive) :
  match (e1 ?= e2)%Z with
  | Lt => Lt | Gt => Gt | Eq => Pos.compare_cont Eq m1 m2 end = Lt ->
  match (e2 ?= e3)%Z with
  | Lt => Lt | Gt => Gt | Eq => Pos.compare_cont Eq m2 m3 end = Lt ->
  match (e1 ?= e3)%Z with
  | Lt => Lt | Gt => Gt | Eq => Pos.compare_cont Eq m1 m3 end = Lt.
Proof.
  destruct (Z.compare_spec e1 e2), (Z.compare_spec e2 e3),
           (Z.compare_spec e1 e3);
    try discriminate; try reflexivity; try lia;
    rewrite ?cmp_cont_lt; lia.
Qed.

Lemma lex_gt_trans (e1 e2 e3 : Z) (m1 m2 m3 : positive) :
  match (e1 ?= e2)%Z with
  | Lt => Gt | Gt => Lt | Eq => CompOpp (Pos.compare_cont Eq m1 m2) end = Lt ->
  match (e2 ?= e3)%Z with
  | Lt => Gt | Gt => Lt | Eq => CompOpp (Pos.compare_cont Eq m2 m3) end = Lt ->
  match (e1 ?= e3)%Z with
  | Lt => Gt | Gt => Lt | Eq => CompOpp (Pos.compare_cont Eq m1 m3) end = Lt.
Proof.
  assert (Hopp : forall p q, CompOpp (Pos.compare_cont Eq p q) = Lt
                             <-> (q < p)%positive).
  { intros p q. rewrite <- cmp_cont_gt.
    destruct (Pos.compare_cont Eq p q); simpl; split; congruence. }
  destruct (Z.compare_spec e1 e2), (Z.compare_spec e2 e3),
           (Z.compare_spec e1 e3);
    try discriminate; try reflexivity; try lia;
    rewrite ?Hopp; lia.
Qed.

Lemma SFltb_trans (x y z : spec_float) :
  SFltb x y = true -> SFltb y z = true -> SFltb x z = true.
Proof.
  unfold SFltb.
  destruct x as [sx|sx| |sx mx ex], y as [sy|sy| |sy my ey],
           z as [sz|sz| |sz mz ez]; cbn [SFcompare];
    try discriminate; try reflexivity;
    try (destruct sx, sy, sz; (discriminate || reflexivity)).
  destruct sx, sy, sz; try discriminate; try reflexivity.
  - intros H1 H2.
    rewrite (lex_gt_trans ex ey ez mx my mz); [reflexivity| |].
    + destruct (match (ex ?= ey)%Z with Lt => Gt | Gt => Lt
                | Eq => CompOpp (Pos.compare_cont Eq mx my) end);
        [discriminate | reflexivity | discriminate].
    + destruct (match (ey ?= ez)%Z with Lt => Gt | Gt => Lt
                | Eq => CompOpp (Pos.compare_cont Eq my mz) end);
        [discriminate | reflexivity | discriminate].
  - intros H1 H2.
    rewrite (lex_lt_trans ex ey ez mx my mz); [reflexivity| |].
    + destruct (match (ex ?= ey)%Z with Lt => Lt | Gt => Gt
                | Eq => Pos.compare_cont Eq mx my end);
        [discriminate | reflexivity | discriminate].
    + destruct (match (ey ?= ez)%Z with Lt => Lt | Gt => Gt
                | Eq => Pos.compare_cont Eq my mz end);
        [discriminate | reflexivity | discriminate].
Qed.

Lemma SFcompare_swap (x y : spec_float) :
  SFcompare y x = option_map CompOpp (SFcompare x y).
Proof.
  destruct x as [sx|sx| |sx mx ex], y as [sy|sy| |sy my ey];
    cbn [SFcompare option_map];
    try reflexivity; try (destruct sx; reflexivity);
    try (destruct sy; reflexivity);
    try (destruct sx, sy; reflexivity).
  rewrite (Z.compare_antisym ex ey).
  change (Pos.compare_cont Eq my mx) with (Pos.compare my mx).
  change (Pos.compare_cont Eq mx my) with (Pos.compare mx my).
  rewrite (Pos.compare_antisym mx my).
  destruct sx, sy; try reflexivity;
    destruct (ex ?= ey)%Z; cbn [CompOpp]; try reflexivity;
    destruct (mx ?= my)%positive; reflexivity.
Qed.

Lemma SFcompare_defined (x y : spec_float) :
  SFeqb x x = true -> SFeqb y y = true -> exists c, SFcompare x y = Some c.
Proof.
  destruct x as [sx|sx| |sx mx ex], y as [sy|sy| |sy my ey];
    try discriminate; intros _ _; cbn [SFcompare]; eauto.
Qed.

Lemma ltb_trans (x y z : float) :
  (x <? y) = true -> (y <? z) = true -> (x <? z) = true.
Proof. rewrite !ltb_spec. apply SFltb_trans. Qed.

Lemma ltb_irrefl (x : float) : (x <? x) = false.
Proof.
  rewrite ltb_spec. unfold SFltb.
  destruct (Prim2SF x) as [s|s| |s m e]; cbn [SFcompare];
    try (destruct s; reflexivity); try reflexivity.
  rewrite Z.compare_refl.
  change (Pos.compare_cont Eq m m) with (Pos.compare m m).
  rewrite Pos.compare_refl. destruct s; reflexivity.
Qed.

(** Of two numbers that are not nan, one that is not below the other is at
    least equal to it. *)
Lemma not_ltb_leb (x y : float) :
  is_nan x = false -> is_nan y = false ->
  (x <? y) = false -> (y <=? x) = true.
Proof.
  unfold is_nan. rewrite !negb_false_iff, ltb_spec, leb_spec, !eqb_spec.
  unfold SFltb, SFleb. intros Hx Hy.
  destruct (SFcompare_defined _ _ Hx Hy) as (c & E).
  rewrite (SFcompare_swap (Prim2SF x) (Prim2SF y)), E.
  destruct c; cbn; congruence.
Qed.

Lemma gtb_F_irrefl lm (a : pynum) : gtb (FArith lm) a a = false.
Proof. apply ltb_irrefl. Qed.

Lemma gtb_F_trans lm (a c n : pynum) :
  gtb (FArith lm) a c = false -> gtb (FArith lm) n c = true ->
  gtb (FArith lm) a n = false.
Proof.
  cbn [gtb FArith]. intros H1 H2.
  destruct (fval n <? fval a) eqn:E; [|reflexivity].
  rewrite (ltb_trans _ _ _ H2 E) in H1. discriminate H1.
Qed.

(** *** Division and power on Python numbers *)

Lemma F_div_Some (a b q : pynum) :
  F_div a b = Some q -> q = lift2 PrimFloat.div a b.
Proof.
  unfold F_div.
  destruct ((fval b =? 0) && negb (is_np a || is_np b)); [discriminate|].
  intros [= <-]. reflexivity.
Qed.

Lemma F_div_py_zero (a b : pynum) :
  (fval b =? 0) = true -> is_np a = false -> is_np b = false ->
  F_div a b = None.
Proof.
  intros Hb Ha Hb'. unfold F_div. rewrite Hb, Ha, Hb'. reflexivity.
Qed.

(** Zero divided by anything is a zero or not a number: its ceiling, when
    there is one, is 0. *)
Lemma float_ceil_zero_div (y : float) (N : Z) :
  float_ceil (0 / y) = Some N -> N = 0%Z.
Proof.
  unfold float_ceil. rewrite div_spec.
  change (Prim2SF 0) with (S754_zero false).
  destruct (Prim2SF y) as [s| s| |s m e]; cbn; congruence.
Qed.

Lemma zero_flow_quotient :
  (0 / float_of_Z 3600 / (float_of_Z 242 / float_of_Z 100)
     / (float_of_Z 160 / float_of_Z 10))%float = 0%float.
Proof. vm_compute. reflexivity. Qed.

Lemma least_positive_quotient :
  (Runs.least_positive / float_of_Z 3600
     / (float_of_Z 242 / float_of_Z 100)
     / (float_of_Z 160 / float_of_Z 10))%float = 0%float.
Proof. vm_compute. reflexivity. Qed.

(** A gas flow whose volume flow over the design velocity comes out as
    zero gives a tube count of zero, when it gives one at all. *)
Lemma tube_count_F_no_flow lm gf gt tc cw N :
  (gf / float_of_Z 3600 / (float_of_Z 242 / float_of_Z 100)
      / (float_of_Z 160 / float_of_Z 10))%float = 0%float ->
  tube_count (FArith lm) (init (FArith lm) (py gf) gt tc cw) = Some N ->
  N = 0%Z.
Proof.
  intros Hq. unfold tube_count, init.
  cbn [gas_flow Di num of_Z lit pi mul div pow ceil_int FArith].
  intros H.
  apply bind_Some in H. destruct H as (g & Eg & H).
  apply bind_Some in H. destruct H as (v & Ev & H).
  apply bind_Some in H. destruct H as (a & Ea & H).
  apply bind_Some in H. destruct H as (r & Er & H).
  apply bind_Some in H. destruct H as (r2 & Er2 & H).
  apply bind_Some in H. destruct H as (x & Ex & H).
  apply F_div_Some in Eg, Ev, Ea, Ex. subst g v a x.
  cbn [fval lift2 py] in H. rewrite Hq in H.
  apply (float_ceil_zero_div _ _ H).
Qed.

Lemma seed_not_dilute_F lm :
  ltb (FArith lm) (lit (FArith lm) 5 100) (lit (FArith lm) 1 100) = false.
Proof. vm_compute. reflexivity. Qed.

Lemma no_perimeter_F lm :
  (fval (mul (FArith lm)
           (mul (FArith lm) (pi (FArith lm)) (lit (FArith lm) 20 1000))
           (of_Z (FArith lm) 0)) =? 0) = true.
Proof. vm_compute. reflexivity. Qed.

(** With such a gas flow [solve] raises on Python numbers: line 43 divides
    by the wetted perimeter of zero tubes. *)
Lemma solve_F_no_flow lm gf gt tc cw :
  (gf / float_of_Z 3600 / (float_of_Z 242 / float_of_Z 100)
      / (float_of_Z 160 / float_of_Z 10))%float = 0%float ->
  solve (FArith lm) (init (FArith lm) (py gf) (py gt) (py tc) (py cw)) = None.
Proof.
  intros Hq.
  destruct (solve _ _) as [[r self']|] eqn:H; [exfalso|reflexivity].
  destruct (solve_first_pass_any _ _ _ _ H)
    as (water & N & st0 & s1 & Hw & HN & H0 & Hs).
  apply (tube_count_F_no_flow _ _ _ _ _ _ Hq) in HN. subst N.
  assert (Hpy : is_np water = false).
  { unfold water_rate in Hw. apply bind_Some in Hw.
    destruct Hw as (q & Eq & Hw). apply F_div_Some in Eq. subst q.
    injection Hw as <-. reflexivity. }
  unfold initial_state in H0. apply bind_Some in H0.
  destruct H0 as (h & Eh & H0). apply F_div_Some in Eh. injection H0 as <-.
  unfold march_step in Hs.
  cbn [N_tubes set_N_tubes bind current_hcl_mass Di init] in Hs.
  apply bind_Some in Hs. destruct Hs as (m & Em & Hs).
  apply bind_Some in Hs. destruct Hs as (gamma & Eg & _).
  apply F_div_Some in Em.
  cbn [div FArith] in Eg. rewrite F_div_py_zero in Eg; [discriminate| | |].
  - apply no_perimeter_F.
  - subst m h. cbn. rewrite Hpy. reflexivity.
  - reflexivity.
Qed.

(** X10.  A target of zero makes [solve] raise on line 24, whatever the
    other inputs: in exact arithmetic, and in binary64 on Python numbers
    for any math library (for [-0.0] as well). *)
Theorem zero_target_raises :
  (forall gf gt cw : R,
     solve RealArith.RArith (init RealArith.RArith gf gt 0%R cw) = None) /\
  (forall lm gf gt z cw,
     (z =? 0) = true ->
     solve (FArith lm) (init (FArith lm) (py gf) (py gt) (py z) (py cw))
     = None).
Proof.
  split.
  - intros gf gt cw. unfold solve, water_rate.
    cbn [target_conc init div RealArith.RArith]. unfold RealArith.R_div.
    destruct (Req_EM_T 0 0) as [_|H];
      [reflexivity | contradiction H; reflexivity].
  - intros lm gf gt z cw Hz. unfold solve, water_rate.
    cbn [target_conc gas_flow hcl_frac init div mul lit FArith].
    rewrite F_div_py_zero; auto.
Qed.

Lemma zero_target_raises_witness :
  solve Runs.F (init Runs.F (py 2500) (py 10) (py 0) (py 32)) = None /\
  solve Runs.F (init Runs.F (py 2500) (py 10) (py (-0)) (py 32)) = None.
Proof.
  destruct zero_target_raises as (_ & H).
  split; apply H; reflexivity.
Defined.

(** X11.  A gas inlet temperature of -273 C makes [solve] raise in its
    first pass, on line 19, whatever the other inputs: in exact
    arithmetic, and in binary64 on Python numbers for any math
    library. *)
Theorem singular_inlet_temperature_raises :
  (forall gf tc cw : R,
     solve RealArith.RArith (init RealArith.RArith gf (-273)%R tc cw) = None) /\
  (forall lm gf t tc cw,
     (t + float_of_Z 273 =? 0) = true ->
     solve (FArith lm) (init (FArith lm) (py gf) (py t) (py tc) (py cw))
     = None).
Proof.
  split.
  - intros gf tc cw.
    destruct (solve _ _) as [[r self']|] eqn:H; [exfalso|reflexivity].
    destruct (solve_first_pass_any _ _ _ _ H)
      as (water & N & st0 & s1 & _ & _ & H0 & Hs).
    rewrite RealFacts.initial_state_R in H0. injection H0 as <-.
    apply RealFacts.march_step_R_Some in Hs.
    cbn [T_curr C_curr gas_temp set_N_tubes init] in Hs.
    destruct Hs as [Hs|Hs]; [lra | apply Hs; lra].
  - intros lm gf t tc cw Ht.
    destruct (solve _ _) as [[r self']|] eqn:H; [exfalso|reflexivity].
    destruct (solve_first_pass_any _ _ _ _ H)
      as (water & N & st0 & s1 & _ & _ & H0 & Hs).
    unfold initial_state in H0. apply bind_Some in H0.
    destruct H0 as (h & _ & H0). injection H0 as <-.
    unfold march_step in Hs. inv_bind Hs.
    match goal with
    | E : get_equilibrium_pressure _ _ _ = Some _ |- _ =>
        unfold get_equilibrium_pressure in E;
        cbn [T_curr C_curr gas_temp set_N_tubes init] in E;
        rewrite seed_not_dilute_F in E;
        cbn [div add of_Z FArith] in E;
        rewrite F_div_py_zero in E by (auto; exact Ht);
        discriminate E
    end.
Qed.

Lemma singular_inlet_temperature_raises_witness :
  solve Runs.F (init Runs.F (py 2500) (py (-273)) (py 0.5) (py 32)) = None.
Proof.
  destruct singular_inlet_temperature_raises as (_ & H).
  apply H. reflexivity.
Defined.

(** X12.  A gas flow of zero makes [solve] raise in binary64 on Python
    numbers, for any math library: the tube count, when it is computed at
    all, is zero, and line 43 divides by the wetted perimeter of zero
    tubes. *)
Theorem zero_flow_raises lm gt tc cw :
  solve (FArith lm) (init (FArith lm) (py 0) (py gt) (py tc) (py cw)) = None.
Proof.
  destruct (solve _ _) as [[r self']|] eqn:H; [exfalso|reflexivity].
  destruct (solve_first_pass_any _ _ _ _ H)
    as (water & N & st0 & s1 & Hw & HN & H0 & Hs).
  apply (tube_count_F_no_flow lm 0%float _ _ _ _ zero_flow_quotient) in HN.
  subst N.
  assert (Hpy : is_np water = false).
  { unfold water_rate in Hw. apply bind_Some in Hw.
    destruct Hw as (q & Eq & Hw). apply F_div_Some in Eq. subst q.
    injection Hw as <-. reflexivity. }
  unfold initial_state in H0. apply bind_Some in H0.
  destruct H0 as (h & Eh & H0). apply F_div_Some in Eh. injection H0 as <-.
  unfold march_step in Hs.
  cbn [N_tubes set_N_tubes bind current_hcl_mass Di init] in Hs.
  apply bind_Some in Hs. destruct Hs as (m & Em & Hs).
  apply bind_Some in Hs. destruct Hs as (gamma & Eg & _).
  apply F_div_Some in Em.
  cbn [div FArith] in Eg. rewrite F_div_py_zero in Eg; [discriminate| | |].
  - apply no_perimeter_F.
  - subst m h. cbn. rewrite Hpy. reflexivity.
  - reflexivity.
Qed.

Lemma totals_match_profiles_witness :
  exists r self',
    solve Runs.F Runs.default_inputs = Some (r, self') /\
    res_heat r = fold_left (add Runs.F) (res_flux r) (of_Z Runs.F 0) /\
    nth_error (res_z r) (length (res_z r) - 1) = Some (res_length r).
Proof.
  eexists. eexists. split; [vm_compute; reflexivity|].
  assert (H := totals_match_profiles Runs.F Runs.default_inputs _ _
                 ltac:(vm_compute; reflexivity)).
  exact H.
Defined.

(** *** The peak temperature *)

(** X2.  The peak temperature that [solve] returns is one of the recorded
    temperatures, in every arithmetic.  No recorded temperature exceeds
    it: in exact arithmetic, and in binary64 for any math library, where
    no recorded temperature compares greater than the peak, and every one
    is at most the peak when none of them is nan. *)
Theorem peak_temperature_is_maximum :
  (forall (A : Arith) (self self' : AbsorberSimulation (num A)) r,
     solve A self = Some (r, self') ->
     In (res_max_temp r) (res_temp r)) /\
  (forall (self self' : AbsorberSimulation R) r,
     solve RealArith.RArith self = Some (r, self') ->
     Forall (fun t => (t <= res_max_temp r)%R) (res_temp r)) /\
  (forall lm (self self' : AbsorberSimulation pynum) r,
     solve (FArith lm) self = Some (r, self') ->
     Forall (fun t => (fval (res_max_temp r) <? fval t) = false)
            (res_temp r) /\
     (Forall (fun t => is_nan (fval t) = false) (res_temp r) ->
      Forall (fun t => (fval t <=? fval (res_max_temp r)) = true)
             (res_temp r))).
Proof.
  assert (Hin : forall (A : Arith) (self self' : AbsorberSimulation (num A)) r,
            solve A self = Some (r, self') ->
            In (res_max_temp r) (res_temp r)).
  { intros A self self' r H.
    destruct (solve_inv _ _ _ _ H)
      as (water & N & st0 & st & peak & _ & _ & _ & _ & _ & Hp & ->).
    apply py_max_list_In. exact Hp. }
  split; [exact Hin|]. split.
  - intros self self' r H.
    destruct (solve_inv _ _ _ _ H)
      as (water & N & st0 & st & peak & _ & _ & _ & _ & _ & Hp & ->).
    cbn [res_max_temp res_temp].
    change (num RealArith.RArith) with R in *.
    destruct (temp_liquid st) as [|x xs]; [constructor|].
    injection Hp as <-.
    destruct (RealMore.fold_py_max_R_bound xs x) as (H1 & H2).
    constructor; assumption.
  - intros lm self self' r H.
    assert (Hmax : Forall (fun t => (fval (res_max_temp r) <? fval t) = false)
                          (res_temp r)).
    { destruct (solve_inv _ _ _ _ H)
        as (water & N & st0 & st & peak & _ & _ & _ & _ & _ & Hp & ->).
      apply (py_max_list_bound (FArith lm) _ _
               (gtb_F_irrefl lm) (gtb_F_trans lm) Hp). }
    split; [exact Hmax|].
    intros Hnan. rewrite Forall_forall in Hmax, Hnan |- *.
    intros t Ht. apply not_ltb_leb; auto.
    apply Hnan, (Hin _ _ _ _ H).
Qed.

Lemma peak_temperature_is_maximum_witness :
  exists r self',
    solve Runs.F Runs.unreached_inputs = Some (r, self') /\
    length (res_temp r) = 60%nat /\
    In (res_max_temp r) (res_temp r) /\
    Forall (fun t => (fval t <=? fval (res_max_temp r)) = true) (res_temp r).
Proof.
  eexists. eexists. split; [vm_compute; reflexivity|].
  split; [reflexivity|].
  destruct peak_temperature_is_maximum as (Hin & _ & Hmax).
  split.
  - apply (Hin Runs.F Runs.unreached_inputs _ _
             ltac:(vm_compute; reflexivity)).
  - apply (Hmax LibmApprox.libm Runs.unreached_inputs _ _
             ltac:(vm_compute; reflexivity)).
    repeat constructor.
Defined.

(** *** Where line 19 can raise *)

(** X3.  In binary64, for any math library, [get_equilibrium_pressure]
    raises exactly when the concentration is not below 0.01 and the
    temperature is a Python number with [temp + 273 == 0]: with a numpy
    scalar the division of line 19 yields inf or nan and the function
    returns.  A pass that starts with a numpy scalar for the liquid
    temperature ends with one, so once a pass has left one, line 19 does
    not raise again. *)
Theorem correlation_raises_on_python_numbers_only :
  (forall lm temp conc,
     get_equilibrium_pressure (FArith lm) temp conc = None <->
     ltb (FArith lm) conc (lit (FArith lm) 1 100) = false /\
     is_np temp = false /\
     (fval temp + float_of_Z 273 =? 0) = true) /\
  (forall lm self water st st',
     march_step (FArith lm) self water st = Some st' ->
     is_np (T_curr st) = true -> is_np (T_curr st') = true) /\
  (forall lm self water k st st',
     iter_step (FArith lm) self water k st = Some st' ->
     is_np (T_curr st) = true ->
     is_np (T_curr st') = true /\
     get_equilibrium_pressure (FArith lm) (T_curr st') (C_curr st') <> None).
Proof.
  assert (Hraise : forall lm temp conc,
     get_equilibrium_pressure (FArith lm) temp conc = None <->
     ltb (FArith lm) conc (lit (FArith lm) 1 100) = false /\
     is_np temp = false /\
     (fval temp + float_of_Z 273 =? 0) = true).
  { intros lm temp conc. unfold get_equilibrium_pressure.
    destruct (ltb (FArith lm) conc (lit (FArith lm) 1 100)).
    - split; [discriminate | intros (H & _); discriminate H].
    - cbn [div add of_Z np_log FArith]. unfold F_div.
      cbn [fval is_np lift2 py orb bind].
      rewrite orb_false_r.
      destruct (fval temp + float_of_Z 273 =? 0), (is_np temp);
        cbn [andb negb bind]; split; try discriminate; auto;
        intros (_ & H1 & H2); discriminate. }
  assert (Hstep : forall lm self water st st',
     march_step (FArith lm) self water st = Some st' ->
     is_np (T_curr st) = true -> is_np (T_curr st') = true).
  { intros lm self water st st' H HT. unfold march_step in H. inv_bind H.
    injection H as <-. cbn. apply orb_true_intro. left. exact HT. }
  split; [exact Hraise|]. split; [exact Hstep|].
  intros lm self water k st st' H HT.
  assert (Hnp : is_np (T_curr st') = true).
  { revert st' H. induction k as [|k IH]; intros st' H.
    - injection H as <-. exact HT.
    - rewrite iter_step_S_last in H. apply bind_Some in H.
      destruct H as (sk & Hk & Hs). apply (Hstep _ _ _ _ _ Hs), IH, Hk. }
  split; [exact Hnp|].
  intros HN. apply Hraise in HN. destruct HN as (_ & HN & _). congruence.
Qed.

Lemma correlation_raises_on_python_numbers_only_witness :
  get_equilibrium_pressure Runs.F (py (-273)) (lit Runs.F 5 100) = None /\
  get_equilibrium_pressure Runs.F (np (-273)) (lit Runs.F 5 100) <> None /\
  exists st st',
    state_after Runs.F Runs.default_inputs 1 = Some st /\
    state_after Runs.F Runs.default_inputs 2 = Some st' /\
    is_np (T_curr st) = true /\ is_np (T_curr st') = true.
Proof.
  destruct correlation_raises_on_python_numbers_only
    as (Hraise & Hstep & Hrun).
  split; [apply Hraise; repeat split; reflexivity|].
  split.
  - intros H. apply Hraise in H. destruct H as (_ & H & _). discriminate H.
  - destruct (solve_entries Runs.F Runs.default_inputs _ _
                ltac:(vm_compute; reflexivity) 2 ltac:(cbn; lia))
      as (prev & st & water & Hprev & Hst & Hs & _).
    exists prev, st. split; [exact Hprev|]. split; [exact Hst|].
    assert (Hnp : is_np (T_curr prev) = true).
    { vm_compute in Hprev. injection Hprev as <-. reflexivity. }
    split; [exact Hnp|]. exact (Hstep _ _ _ _ _ Hs Hnp).
Defined.

(** *** Where binary64 departs from exact arithmetic *)

(** The concentration: inputs with [gas_flow > 0] and
    [0 < target_conc < 1] for which the first pass leaves a concentration
    below the seed's, the absorbed mass being lost in the rounding of
    line 59 and the quotient of line 60 rounding down; and inputs for
    which the solvent rate overflows and the concentration after the first
    pass is nan, neither at least 0 nor at most 1. *)
Lemma concentration_decreases_by_rounding :
  ((0 <? fval (gas_flow Runs.rounding_inputs)) = true /\
   (0 <? fval (target_conc Runs.rounding_inputs)) = true /\
   (fval (target_conc Runs.rounding_inputs) <? 1) = true /\
   exists st st',
     state_after Runs.F Runs.rounding_inputs 0 = Some st /\
     state_after Runs.F Runs.rounding_inputs 1 = Some st' /\
     (fval (C_curr st') <? fval (C_curr st)) = true) /\
  ((0 <? fval (gas_flow Runs.overflow_inputs)) = true /\
   (0 <? fval (target_conc Runs.overflow_inputs)) = true /\
   (fval (target_conc Runs.overflow_inputs) <? 1) = true /\
   exists st',
     state_after Runs.F Runs.overflow_inputs 1 = Some st' /\
     is_nan (fval (C_curr st')) = true /\
     (0 <=? fval (C_curr st')) = false /\
     (fval (C_curr st') <=? 1) = false).
Proof.
  split.
  - do 3 (split; [vm_compute; reflexivity|]).
    eexists. eexists.
    split; [vm_compute; reflexivity|]. split; [vm_compute; reflexivity|].
    vm_compute. reflexivity.
  - do 3 (split; [vm_compute; reflexivity|]).
    eexists. split; [vm_compute; reflexivity|].
    repeat split; vm_compute; reflexivity.
Qed.

(** The tube count of the smallest positive gas flow.  Its quotient by
    3600 rounds to zero, so whatever the math library the tube count, when
    there is one, is 0, and with the library of this file it is 0; the
    ceiling of the exact quotient is at least 1. *)
Lemma tube_count_zero_for_positive_flow :
  (0 <? Runs.least_positive) = true /\
  (forall lm gt tc cw N,
     tube_count (FArith lm) (init (FArith lm) (py Runs.least_positive) gt tc cw)
     = Some N -> N = 0%Z) /\
  tube_count Runs.F
    (init Runs.F (py Runs.least_positive) (of_Z Runs.F 10)
       (lit Runs.F 32 100) (of_Z Runs.F 32)) = Some 0%Z /\
  (1 <= Zceil (RealArith.tube_quotient (/ 2 ^ 1074)))%Z.
Proof.
  split; [vm_compute; reflexivity|]. split; [|split].
  - intros lm gt tc cw N.
    apply tube_count_F_no_flow, least_positive_quotient.
  - vm_compute. reflexivity.
  - apply RealFacts.Zceil_pos, RealFacts.tube_quotient_pos.
    apply Rinv_0_lt_compat, pow_lt. lra.
Qed.

(** With the smallest positive gas flow [solve] raises, whatever the
    other inputs and the math library: the tube count is 0 and line 43
    divides by zero. *)
Lemma positive_flow_raises :
  (0 <? Runs.least_positive) = true /\
  forall lm gt tc cw,
    solve (FArith lm)
      (init (FArith lm) (py Runs.least_positive) (py gt) (py tc) (py cw))
    = None.
Proof.
  split; [vm_compute; reflexivity|].
  intros lm gt tc cw. apply solve_F_no_flow, least_positive_quotient.
Qed.

(** A positive gas flow with the target 0.05 for which the solvent rate
    overflows: the concentration is nan after every pass, the test of
    line 69 never holds, and [solve] returns 60 entries. *)
Lemma seed_target_sixty_entries :
  (0 <? fval (gas_flow Runs.overflow_seed_inputs)) = true /\
  target_conc Runs.overflow_seed_inputs = lit Runs.F 5 100 /\
  exists r self',
    solve Runs.F Runs.overflow_seed_inputs = Some (r, self') /\
    length (res_z r) = 60%nat /\ length (res_temp r) = 60%nat /\
    length (res_conc r) = 60%nat /\ length (res_flux r) = 60%nat /\
    Forall (fun c => is_nan (fval c) = true) (res_conc r).
Proof.
  split; [vm_compute; reflexivity|]. split; [reflexivity|].
  eexists. eexists. split; [vm_compute; reflexivity|].
  do 4 (split; [reflexivity|]). repeat constructor.
Qed.

(** A positive gas flow for which the overall coefficient times the
    transfer area overflows.  The gas enters at the cooling-water
    temperature, and the heat-flux entry of the first pass is infinity
    times zero, nan and not zero. *)
Lemma heat_flux_nan_at_equal_temperatures :
  (0 <? fval (gas_flow Runs.isothermal_inputs)) = true /\
  (0 <? fval (target_conc Runs.isothermal_inputs)) = true /\
  (fval (target_conc Runs.isothermal_inputs) <? 1) = true /\
  exists st st' q,
    state_after Runs.F Runs.isothermal_inputs 0 = Some st /\
    state_after Runs.F Runs.isothermal_inputs 1 = Some st' /\
    (fval (T_curr st) =? fval (cw_temp Runs.isothermal_inputs)) = true /\
    flux_profile st' = flux_profile st ++ [q] /\
    is_nan (fval q) = true /\ (fval q =? 0) = false.
Proof.
  do 3 (split; [vm_compute; reflexivity|]).
  eexists. eexists. eexists.
  split; [vm_compute; reflexivity|]. split; [vm_compute; reflexivity|].
  split; [vm_compute; reflexivity|]. split; [reflexivity|].
  split; vm_compute; reflexivity.
Qed.

End FloatMore.
